(** * LiteDRAM refresher: timer, sequencer and refresh state machine

    Shallow embedding of [litedram/core/refresher.py].  The source is a Migen
    hardware description: a [Signal] is an unsigned register or wire of a fixed
    number of bits, [self.comb] statements are wires (pure functions of the
    registers and the inputs of the current clock cycle) and [self.sync]
    statements are register updates: every right-hand side and every condition
    reads the values of the current cycle, and the assigned register shows the
    new value from the next cycle on.  Inside one clock domain the statements
    run in program order, so a later assignment to a register overrides an
    earlier one.

    A clock cycle is one step.  A module is a record of its registers, a
    function from registers (and inputs) to each wire, and a function [next]
    that gives the registers of the following cycle. *)

From Stdlib Require Import ZArith List Bool Lia.
Import ListNotations.

Local Open Scope Z_scope.

(** ** The Migen constructs the source uses *)

Module Migen.

(** [log2_int(n, need_pow2=False)]: [(n - 1).bit_length()], and 0 at 0. *)
Definition log2_int (n : Z) : Z := Z.log2_up n.

(** [bits_for(n)]: width of the unsigned signal that holds [n]; a value that
    is not positive gets a sign bit. *)
Definition bits_for (n : Z) : Z :=
  if 0 <? n then log2_int (n + 1) else log2_int (- n) + 1.

(** Width of [Signal(max=m)], whose values range over [0 .. m-1]. *)
Definition bits_for_max (m : Z) : Z := Z.max (bits_for 0) (bits_for (m - 1)).

(** Assignment to an unsigned signal of [w] bits keeps the low [w] bits. *)
Definition trunc (w v : Z) : Z := v mod 2 ^ w.

(** [ResetInserter]: while [reset] is high every register of the wrapped
    module takes its reset value, whatever its [sync] statements say. *)
Definition ResetInserter {S I : Type} (reset_state : S) (next : S -> I -> S)
    (reset : bool) (s : S) (i : I) : S :=
  if reset then reset_state else next s i.

Section Timeline.
Context {R : Type}.

(** Modelled from the spec: an entry of the schedule given to [timeline], an
    offset and the register updates made at it (the spec's ScheduleEntry). *)
Definition event : Type := Z * (R -> R).

(** Modelled from the spec: [lastevent = max([e[0] for e in events])], the
    schedule's final offset. *)
Definition lastevent (events : list event) : Z :=
  fold_right Z.max 0 (map fst events).

(** Modelled from the spec: the width of the elapsed-step counter,
    [Signal(max=lastevent+1)]. *)
Definition counter_bits (events : list event) : Z :=
  bits_for_max (lastevent events + 1).

(** Modelled from the spec: when an entry applies.  The entry at offset 0
    applies in the trigger cycle, [trigger & (counter == 0)]; an entry at
    offset [o] applies when the counter shows [o]. *)
Definition get_cond (trigger : bool) (counter : Z) (e : event) : bool :=
  if fst e =? 0 then trigger && (counter =? 0) else counter =? fst e.

(** Modelled from the spec: the elapsed-step counter advances only while
    triggered and not yet done.  It goes from 0 to 1 on the trigger, counts
    up while it is not 0 and returns to 0 after the last event: by an
    explicit test, unless [lastevent + 1] is a power of two, where the
    increment overflows to 0. *)
Definition counterlogic (events : list event) (trigger : bool) (counter : Z) : Z :=
  let w := counter_bits events in
  let counting :=
    if negb (counter =? 0) then trunc w (counter + 1)
    else if trigger then trunc w 1
    else counter in
  if negb (Z.land (lastevent events) (lastevent events + 1) =? 0) then
    if counter =? lastevent events then trunc w 0 else counting
  else counting.

(** Modelled from the spec: the updates of every entry that applies, in the
    order of the schedule, [If(get_cond(e), *e[1]) for e in events]. *)
Definition run_events (events : list event) (trigger : bool) (counter : Z) (r : R) : R :=
  fold_left (fun acc e => if get_cond trigger counter e then snd e acc else acc)
            events r.

(** Modelled from the spec: [timeline] is imported from [migen.genlib.misc]
    and is not part of [refresher.py].  The spec describes it (design notes)
    as a lookup table of (offset, field-update) pairs evaluated against an
    elapsed-step counter each tick.  The model follows the library function:
    it returns [sync] statements over a fresh [counter] register, the
    conditional updates of [run_events] followed by [counterlogic]; all of
    them read the counter and the trigger of the current cycle. *)
Definition timeline (events : list event) (trigger : bool) (cr : Z * R) : Z * R :=
  (counterlogic events trigger (fst cr), run_events events trigger (fst cr) (snd cr)).

End Timeline.

End Migen.

(** ** RefreshTimer *)

Module RefreshTimer.
Import Migen.

(** [count = Signal(bits_for(trefi), reset=trefi-1)] is the only register. *)
Record state : Type := mkState { count : Z }.

(** Input signals [wait], [load] and [load_count]. *)
Record inputs : Type := mkInputs { wait : bool; load : bool; load_count : Z }.

Section Timer.
Variable trefi : Z.

Definition width : Z := bits_for trefi.

Definition reset_state : state := {| count := trefi - 1 |}.

(** [done.eq(count == 0)], [self.done.eq(done)]. *)
Definition done (s : state) : bool := count s =? 0.

Definition next (s : state) (i : inputs) : state :=
  if wait i then
    if negb (done s) then
      if load i && (load_count i <? count s) then
        {| count := trunc width (load_count i) |}
      else
        {| count := trunc width (count s - 1) |}
    else s
  else reset_state.

(** The timer behind [ResetInserter], [ResetInserter()(timer)], as the
    refresher instantiates it. *)
Definition next_gated (reset : bool) (s : state) (i : inputs) : state :=
  ResetInserter reset_state next reset s i.

(** A run of the gated timer over the (reset, inputs) pairs of successive
    cycles. *)
Definition run_gated (ins : list (bool * inputs)) (s : state) : state :=
  fold_left (fun acc ri => next_gated (fst ri) acc (snd ri)) ins s.

(** The enable gate is off in a cycle when the wrapper's reset is high or
    [wait] is low; both assign [count.reset]. *)
Definition gate_off (ri : bool * inputs) : bool := fst ri || negb (wait (snd ri)).

(** An enabled cycle ([wait] high) without a reload, ... *)
Definition tick (s : state) : state :=
  next s {| wait := true; load := false; load_count := 0 |}.

(** ... an enabled cycle with [load] high and [load_count = v], ... *)
Definition reload (v : Z) (s : state) : state :=
  next s {| wait := true; load := true; load_count := v |}.

(** ... and [n] enabled cycles without a reload. *)
Fixpoint coast (n : nat) (s : state) : state :=
  match n with
  | O => s
  | S k => coast k (tick s)
  end.

End Timer.

(** The enable gate is on in a cycle: no reset and [wait] high. *)
Definition gate_on (ri : bool * inputs) : bool := negb (gate_off ri).

(** [load_count] is an unsigned signal: its value is never negative. *)
Definition load_unsigned (ri : bool * inputs) : bool := 0 <=? load_count (snd ri).

End RefreshTimer.

(** ** RefreshSequencer *)

Module RefreshSequencer.
Import Migen.

(** The registers the sequencer drives: the payload of the command endpoint
    ([a], [ba], [cas], [ras], [we]) and its own [done]. *)
Record regs : Type := mkRegs
  { a : Z; ba : Z; cas : bool; ras : bool; we : bool; done : bool }.

(** The sequencer's state is the timeline counter and those registers. *)
Record state : Type := mkState { counter : Z; out : regs }.

Definition set_ras (r : regs) : regs :=
  {| a := a r; ba := ba r; cas := cas r; ras := true; we := we r; done := done r |}.
Definition set_we (r : regs) : regs :=
  {| a := a r; ba := ba r; cas := cas r; ras := ras r; we := true; done := done r |}.
Definition set_cas (r : regs) : regs :=
  {| a := a r; ba := ba r; cas := true; ras := ras r; we := we r; done := done r |}.
Definition set_done (r : regs) : regs :=
  {| a := a r; ba := ba r; cas := cas r; ras := ras r; we := we r; done := true |}.

Section Sequencer.
Variables (abits babits : Z) (trp trfc : Z).

(** The schedule handed to [timeline]. *)
Definition events : list (@event regs) :=
  [ (0,          fun r => set_we (set_ras r));
    (trp,        fun r => set_ras (set_cas r));
    (trp + trfc, set_done) ].

(** The unconditional assignments that come first in the [sync] block:
    [cmd.a.eq(2**10)], [cmd.ba.eq(0)], the three strobes and [done] to 0. *)
Definition defaults : regs :=
  {| a := trunc abits (2 ^ 10); ba := trunc babits 0;
     cas := false; ras := false; we := false; done := false |}.

Definition reset_state : state :=
  {| counter := 0;
     out := {| a := 0; ba := 0; cas := false; ras := false; we := false; done := false |} |}.

Definition next (start : bool) (s : state) : state :=
  let cr := timeline events start (counter s, defaults) in
  {| counter := fst cr; out := snd cr |}.

(** The registers in cycle [n] (cycle 0 is the reset state) when [start] is
    driven as [start k] in cycle [k]. *)
Fixpoint run (start : nat -> bool) (n : nat) : state :=
  match n with
  | O => reset_state
  | S k => next (start k) (run start k)
  end.

(** What the timeline counter shows in cycle [k] after a single trigger in
    cycle [p]: 0 up to and including the trigger cycle, then 1, 2, ...,
    [trp + trfc], then 0 again. *)
Definition counter_after (p k : nat) : Z :=
  let d := Z.of_nat k - Z.of_nat p in
  if d <=? 0 then 0 else if d <=? trp + trfc then d else 0.

End Sequencer.

(** [start] high in cycle [p] and in no other cycle; [start] never high. *)
Definition start_at (p : nat) : nat -> bool := fun k => Nat.eqb k p.
Definition never : nat -> bool := fun _ => false.

End RefreshSequencer.

(** ** Refresher *)

Module Refresher.
Import Migen.

Inductive fsm_state : Type := IDLE | WAIT_CONTROLLER_GRANT | WAIT_SEQUENCER.

(** What the settings object provides. *)
Record settings : Type := mkSettings
  { addressbits : Z;      (* settings.geom.addressbits *)
    bankbits : Z;         (* settings.geom.bankbits *)
    nranks : Z;           (* settings.phy.nranks *)
    tREFI : Z; tRP : Z; tRFC : Z;   (* settings.timing *)
    with_refresh : bool }.

Record state : Type := mkState
  { timer : RefreshTimer.state;
    sequencer : RefreshSequencer.state;
    fsm : fsm_state }.

(** The wires the state machine drives in one cycle, and its next state.  A
    wire that the active state does not assign is 0. *)
Record fsm_out : Type := mkOut
  { cmd_valid : bool; cmd_last : bool; sequencer_start : bool; next_state : fsm_state }.

(** [fsm.act]: the statements of the active state are wires, [NextState]
    takes effect in the next cycle, and the machine resets to IDLE, the
    first state declared. *)
Definition fsm_act (st : fsm_state) (timer_done cmd_ready sequencer_done : bool) : fsm_out :=
  match st with
  | IDLE =>
      {| cmd_valid := false; cmd_last := false; sequencer_start := false;
         next_state := if timer_done then WAIT_CONTROLLER_GRANT else IDLE |}
  | WAIT_CONTROLLER_GRANT =>
      {| cmd_valid := true; cmd_last := false; sequencer_start := cmd_ready;
         next_state := if cmd_ready then WAIT_SEQUENCER else WAIT_CONTROLLER_GRANT |}
  | WAIT_SEQUENCER =>
      if sequencer_done then
        {| cmd_valid := false; cmd_last := true; sequencer_start := false;
           next_state := IDLE |}
      else
        {| cmd_valid := true; cmd_last := false; sequencer_start := false;
           next_state := WAIT_SEQUENCER |}
  end.

Section Refresher.
Variable cfg : settings.

Definition abits : Z := addressbits cfg.
Definition babits : Z := bankbits cfg + log2_int (nranks cfg).

Definition reset_state : state :=
  {| timer := RefreshTimer.reset_state (tREFI cfg);
     sequencer := RefreshSequencer.reset_state;
     fsm := IDLE |}.

Definition timer_done (s : state) : bool := RefreshTimer.done (timer s).
Definition sequencer_done (s : state) : bool :=
  RefreshSequencer.done (RefreshSequencer.out (sequencer s)).

(** [timer.reset.eq(~settings.with_refresh)], [timer.wait.eq(~timer.done)];
    nothing drives [load] and [load_count], which stay 0. *)
Definition timer_reset : bool := negb (with_refresh cfg).
Definition timer_inputs (s : state) : RefreshTimer.inputs :=
  {| RefreshTimer.wait := negb (timer_done s);
     RefreshTimer.load := false;
     RefreshTimer.load_count := 0 |}.

Definition wires (cmd_ready : bool) (s : state) : fsm_out :=
  fsm_act (fsm s) (timer_done s) cmd_ready (sequencer_done s).

(** [cmd.valid] and [cmd.last] do not depend on [cmd.ready]. *)
Definition valid (s : state) : bool := cmd_valid (wires false s).
Definition last (s : state) : bool := cmd_last (wires false s).

(** One clock cycle with the arbiter's [cmd.ready] as input. *)
Definition next (cmd_ready : bool) (s : state) : state :=
  let w := wires cmd_ready s in
  {| timer := RefreshTimer.next_gated (tREFI cfg) timer_reset (timer s) (timer_inputs s);
     sequencer := RefreshSequencer.next abits babits (tRP cfg) (tRFC cfg)
                    (sequencer_start w) (sequencer s);
     fsm := next_state w |}.

(** The registers in cycle [n] (cycle 0 is the reset state) when the arbiter
    drives [cmd.ready] as [ready k] in cycle [k]. *)
Fixpoint run (ready : nat -> bool) (n : nat) : state :=
  match n with
  | O => reset_state
  | S k => next (ready k) (run ready k)
  end.

(** What the sequencer's counter and [done] can be in each state of the
    machine (an invariant of [next]). *)
Definition inv (s : state) : Prop :=
  let c := RefreshSequencer.counter (sequencer s) in
  match fsm s with
  | IDLE | WAIT_CONTROLLER_GRANT => c = 0 /\ sequencer_done s = false
  | WAIT_SEQUENCER =>
      (1 <= c <= tRP cfg + tRFC cfg /\ sequencer_done s = false) \/
      (c = 0 /\ sequencer_done s = true)
  end.

(** Where the machine stands in cycle [n] when every request is granted at
    once and a sequence fits between two timer pulses: IDLE through the
    first interval, and from then on, by [n mod tREFI], one cycle in
    WAIT-CONTROLLER-GRANT, [tRP + tRFC + 1] cycles in WAIT-SEQUENCER and the
    rest in IDLE. *)
Definition schedule (n : nat) : fsm_state :=
  let r := Z.of_nat n mod tREFI cfg in
  if Z.of_nat n <? tREFI cfg then IDLE
  else if r =? 0 then WAIT_CONTROLLER_GRANT
  else if r <=? tRP cfg + tRFC cfg + 1 then WAIT_SEQUENCER
  else IDLE.

(** Number of cycles among [from, from+1, ..., from+len-1] in which the
    timer's [done] is high. *)
Definition pulses (ready : nat -> bool) (from len : nat) : nat :=
  length (filter (fun k => timer_done (run ready k)) (seq from len)).

End Refresher.

(** Steps counted from 1: step [k] is the [k]-th clock cycle after reset. *)
Definition at_step (cfg : settings) (ready : nat -> bool) (k : nat) : state :=
  run cfg ready (Nat.pred k).

(** The command strobes a state shows, as (cas, ras, we). *)
Definition strobes (s : state) : bool * bool * bool :=
  let r := RefreshSequencer.out (sequencer s) in
  (RefreshSequencer.cas r, RefreshSequencer.ras r, RefreshSequencer.we r).

(** The steps among 1 .. [len] at which the wire or register [P] is high. *)
Definition steps_where (cfg : settings) (ready : nat -> bool) (P : state -> bool)
    (len : nat) : list nat :=
  filter (fun k => P (at_step cfg ready k)) (seq 1 len).

Definition is_idle (s : state) : bool :=
  match fsm s with IDLE => true | _ => false end.
Definition cas_high (s : state) : bool := RefreshSequencer.cas (RefreshSequencer.out (sequencer s)).
Definition ras_high (s : state) : bool := RefreshSequencer.ras (RefreshSequencer.out (sequencer s)).
Definition we_high (s : state) : bool := RefreshSequencer.we (RefreshSequencer.out (sequencer s)).

(** The settings of the end-to-end scenario: tREFI = 100, tRP = 5,
    tRFC = 10, refresh enabled; the geometry is left open. *)
Definition scenario (addressbits' bankbits' nranks' : Z) : settings :=
  {| addressbits := addressbits'; bankbits := bankbits'; nranks := nranks';
     tREFI := 100; tRP := 5; tRFC := 10; with_refresh := true |}.

(** An arbiter that grants in the cycle of the request. *)
Definition always_ready : nat -> bool := fun _ => true.

End Refresher.

(** * Properties *)

(** ** Signal widths *)

Section Widths.
Import Migen.

Lemma trunc_small (w v : Z) : 0 <= v < 2 ^ w -> trunc w v = v.
Proof. intros H. unfold trunc. now apply Z.mod_small. Qed.

Lemma bits_for_pos (n : Z) : 0 < n -> bits_for n = Z.log2_up (n + 1).
Proof.
  intros H. unfold bits_for, log2_int.
  destruct (Z.ltb_spec 0 n); [reflexivity | lia].
Qed.

(** A positive [n] fits in [bits_for n] bits. *)
Lemma bits_for_fits (n : Z) : 0 < n -> n < 2 ^ bits_for n.
Proof.
  intros H. rewrite bits_for_pos by assumption.
  pose proof (Z.log2_up_spec (n + 1)) as Hs. lia.
Qed.

Lemma bits_for_0 : bits_for 0 = 1.
Proof. reflexivity. Qed.

Lemma bits_for_max_fits (n : Z) : 0 < n -> n < 2 ^ bits_for_max (n + 1).
Proof.
  intros H. unfold bits_for_max. replace (n + 1 - 1) with n by lia.
  pose proof (bits_for_fits n H) as Hf.
  rewrite bits_for_0.
  destruct (Z.max_spec 1 (bits_for n)) as [[Hlt ->] | [Hle ->]]; [assumption|].
  assert (Hb : 0 <= bits_for n).
  { rewrite bits_for_pos by assumption. apply Z.log2_up_nonneg. }
  assert (Hm : 2 ^ bits_for n <= 2 ^ 1) by (apply Z.pow_le_mono_r; lia).
  lia.
Qed.

(** When [n] and [n + 1] share no bit, [n + 1] is the power of two that a
    [bits_for n]-bit increment overflows at. *)
Lemma land_succ_pow2 (n : Z) :
  0 < n -> Z.land n (n + 1) = 0 -> n + 1 = 2 ^ bits_for n.
Proof.
  intros Hn Hland. rewrite bits_for_pos by assumption.
  rewrite Z.log2_up_eqn by lia. replace (Z.pred (n + 1)) with n by lia.
  pose proof (Z.log2_spec n Hn) as [Hlo Hhi].
  destruct (Z.eq_dec (n + 1) (2 ^ Z.succ (Z.log2 n))) as [|Hne]; [assumption|].
  exfalso.
  assert (Hlog : Z.log2 (n + 1) = Z.log2 n).
  { apply Z.log2_unique; [apply Z.log2_nonneg | lia]. }
  assert (Hb1 : Z.testbit n (Z.log2 n) = true) by (apply Z.bit_log2; lia).
  assert (Hb2 : Z.testbit (n + 1) (Z.log2 n) = true).
  { rewrite <- Hlog. apply Z.bit_log2. lia. }
  assert (Hb : Z.testbit (Z.land n (n + 1)) (Z.log2 n) = true).
  { rewrite Z.land_spec, Hb1, Hb2. reflexivity. }
  rewrite Hland, Z.bits_0 in Hb. discriminate.
Qed.

Lemma mod_succ (n T : Z) :
  0 < T -> 0 <= n ->
  (n + 1) mod T = if n mod T =? T - 1 then 0 else n mod T + 1.
Proof.
  intros HT Hn.
  pose proof (Z.div_mod n T ltac:(lia)) as Hdm.
  pose proof (Z.mod_pos_bound n T HT) as Hb.
  destruct (Z.eqb_spec (n mod T) (T - 1)) as [He | Hne]; symmetry.
  - apply Z.mod_unique_pos with (q := n / T + 1); lia.
  - apply Z.mod_unique_pos with (q := n / T); lia.
Qed.

End Widths.

(** ** RefreshTimer *)

Section TimerFacts.
Import RefreshTimer.
Variable trefi : Z.

Lemma tick_count (s : state) :
  0 < count s < 2 ^ width trefi -> count (tick trefi s) = count s - 1.
Proof.
  intros H. unfold tick, next, done; cbn.
  destruct (Z.eqb_spec (count s) 0); [lia|]. cbn.
  apply trunc_small. lia.
Qed.

(** Coasting from a count [c] inside the signal's range counts down by one
    per cycle until it reaches 0. *)
Lemma coast_count (j : nat) : forall s : state,
  0 <= count s < 2 ^ width trefi -> Z.of_nat j <= count s ->
  count (coast trefi j s) = count s - Z.of_nat j.
Proof.
  induction j as [|j IH]; intros s Hr Hj.
  - cbn. lia.
  - cbn [coast]. rewrite IH; rewrite tick_count; lia.
Qed.

Lemma next_gated_off (ri : bool * inputs) (s : state) :
  gate_off ri = true -> next_gated trefi (fst ri) s (snd ri) = reset_state trefi.
Proof.
  destruct ri as [rst i]; unfold gate_off, next_gated, Migen.ResetInserter, next; cbn.
  destruct rst; [reflexivity|]. destruct (wait i); [discriminate | reflexivity].
Qed.

Lemma run_gated_off (ins : list (bool * inputs)) : forall s : state,
  ins <> [] -> forallb gate_off ins = true ->
  run_gated trefi ins s = reset_state trefi.
Proof.
  induction ins as [|ri ins IH]; intros s Hne Hoff; [congruence|].
  cbn in Hoff. apply andb_true_iff in Hoff as [Hri Hins].
  unfold run_gated; cbn [fold_left]. rewrite next_gated_off by assumption.
  destruct ins as [|ri' ins']; [reflexivity|].
  apply (IH (reset_state trefi)); [discriminate | assumption].
Qed.

End TimerFacts.

(** C6, as the code has it.  In an enabled cycle with a count [c] that is not
    0, a reload value [v < c] is adopted: the count shows [v] in the next
    cycle, [done] stays low through the [v] cycles that follow the reload
    cycle and is high in the cycle after them, [v + 1] cycles after the
    reload cycle.  A reload value [v >= c] leaves the next state, and so all
    that follows, as in a cycle without reload. *)
Theorem reload_shortens_wait (trefi : Z) (s : RefreshTimer.state) (v : Z) :
  0 < RefreshTimer.count s < 2 ^ RefreshTimer.width trefi -> 0 <= v ->
  (v < RefreshTimer.count s ->
     RefreshTimer.count (RefreshTimer.reload trefi v s) = v /\
     forall j : nat, Z.of_nat j <= v ->
       RefreshTimer.done (RefreshTimer.coast trefi j (RefreshTimer.reload trefi v s))
       = (Z.of_nat j =? v)) /\
  (RefreshTimer.count s <= v ->
     RefreshTimer.reload trefi v s = RefreshTimer.tick trefi s).
Proof.
  intros Hc Hv. split.
  - intros Hlt.
    assert (Hr : RefreshTimer.count (RefreshTimer.reload trefi v s) = v).
    { unfold RefreshTimer.reload, RefreshTimer.next, RefreshTimer.done; cbn.
      destruct (Z.eqb_spec (RefreshTimer.count s) 0); [lia|]. cbn.
      destruct (Z.ltb_spec v (RefreshTimer.count s)); [|lia]. cbn.
      apply trunc_small. lia. }
    split; [exact Hr|].
    intros j Hj. unfold RefreshTimer.done at 1.
    rewrite coast_count by lia. rewrite Hr.
    destruct (Z.eqb_spec (v - Z.of_nat j) 0), (Z.eqb_spec (Z.of_nat j) v); lia || reflexivity.
  - intros Hge.
    unfold RefreshTimer.reload, RefreshTimer.tick, RefreshTimer.next; cbn.
    destruct (Z.ltb_spec v (RefreshTimer.count s)); [lia|]. reflexivity.
Qed.

Lemma reload_shortens_wait_witness :
  (RefreshTimer.count (RefreshTimer.reload 100 2 (RefreshTimer.mkState 5)) = 2 /\
   forall j : nat, Z.of_nat j <= 2 ->
     RefreshTimer.done (RefreshTimer.coast 100 j (RefreshTimer.reload 100 2 (RefreshTimer.mkState 5)))
     = (Z.of_nat j =? 2)) /\
  RefreshTimer.reload 100 7 (RefreshTimer.mkState 5) = RefreshTimer.tick 100 (RefreshTimer.mkState 5).
Proof.
  split.
  - apply (reload_shortens_wait 100 (RefreshTimer.mkState 5) 2); [vm_compute; split; reflexivity | lia | reflexivity].
  - apply (reload_shortens_wait 100 (RefreshTimer.mkState 5) 7); [vm_compute; split; reflexivity | lia | cbn; lia].
Defined.

(** C6 as stated fails: with count 5 and a reload of 2, two cycles after the
    reload cycle the count is 1 and [done] is low; the pulse comes in the
    third cycle.  A reload of 4, though below the count, leaves the same
    state as a cycle without reload. *)
Lemma reload_pulse_not_after_v_steps :
  RefreshTimer.done (RefreshTimer.coast 100 1 (RefreshTimer.reload 100 2 (RefreshTimer.mkState 5))) = false /\
  RefreshTimer.done (RefreshTimer.coast 100 2 (RefreshTimer.reload 100 2 (RefreshTimer.mkState 5))) = true /\
  RefreshTimer.reload 100 4 (RefreshTimer.mkState 5) = RefreshTimer.tick 100 (RefreshTimer.mkState 5).
Proof. repeat split. Qed.

(** C7, as the code has it.  For an interval above 1 and any prior state,
    after every cycle of a non-empty stretch in which the gate is off (reset
    high or [wait] low) the count is [trefi - 1] and [done] is low. *)
Theorem gate_off_pins_count (trefi : Z) (s : RefreshTimer.state)
    (ins : list (bool * RefreshTimer.inputs)) :
  1 < trefi -> ins <> [] -> forallb RefreshTimer.gate_off ins = true ->
  RefreshTimer.count (RefreshTimer.run_gated trefi ins s) = trefi - 1 /\
  RefreshTimer.done (RefreshTimer.run_gated trefi ins s) = false.
Proof.
  intros HT Hne Hoff. rewrite run_gated_off by assumption.
  unfold RefreshTimer.done, RefreshTimer.reset_state; cbn. split; [reflexivity|].
  destruct (Z.eqb_spec (trefi - 1) 0); [lia | reflexivity].
Qed.

Lemma gate_off_pins_count_witness :
  RefreshTimer.count (RefreshTimer.run_gated 100
     [(true, RefreshTimer.mkInputs true true 3); (false, RefreshTimer.mkInputs false false 0)]
     (RefreshTimer.mkState 0)) = 100 - 1 /\
  RefreshTimer.done (RefreshTimer.run_gated 100
     [(true, RefreshTimer.mkInputs true true 3); (false, RefreshTimer.mkInputs false false 0)]
     (RefreshTimer.mkState 0)) = false.
Proof.
  apply (gate_off_pins_count 100 (RefreshTimer.mkState 0)
           [(true, RefreshTimer.mkInputs true true 3); (false, RefreshTimer.mkInputs false false 0)]);
    [lia | discriminate | reflexivity].
Defined.

(** C7 as stated fails at interval 1: the pinned count [trefi - 1] is 0, so
    [done] is high after every gated-off cycle.  At any interval the pin
    shows from the next cycle on: in a first gated-off cycle that starts
    from count 0, [done] is still high. *)
Lemma gate_off_done_at_interval_1 :
  (RefreshTimer.count (RefreshTimer.run_gated 1
      [(false, RefreshTimer.mkInputs false false 0)] (RefreshTimer.reset_state 1)) = 1 - 1 /\
   RefreshTimer.done (RefreshTimer.run_gated 1
      [(false, RefreshTimer.mkInputs false false 0)] (RefreshTimer.reset_state 1)) = true) /\
  (RefreshTimer.done (RefreshTimer.mkState 0) = true /\
   RefreshTimer.count (RefreshTimer.run_gated 100
      [(false, RefreshTimer.mkInputs false false 0)] (RefreshTimer.mkState 0)) = 99).
Proof. repeat split. Qed.

(** C9.  In a cycle with [wait] high and a count of 0, the count stays 0
    whatever [load] and [load_count] are: the reload is ignored. *)
Theorem reload_ignored_at_zero (trefi : Z) (s : RefreshTimer.state) (ld : bool) (v : Z) :
  RefreshTimer.count s = 0 ->
  RefreshTimer.count
    (RefreshTimer.next trefi s
       {| RefreshTimer.wait := true; RefreshTimer.load := ld; RefreshTimer.load_count := v |}) = 0.
Proof.
  intros H. unfold RefreshTimer.next, RefreshTimer.done; cbn. rewrite H. cbn. exact H.
Qed.

Lemma reload_ignored_at_zero_witness :
  RefreshTimer.count
    (RefreshTimer.next 100 (RefreshTimer.mkState 0)
       {| RefreshTimer.wait := true; RefreshTimer.load := true; RefreshTimer.load_count := 42 |}) = 0.
Proof.
  apply (reload_ignored_at_zero 100 (RefreshTimer.mkState 0) true 42). reflexivity.
Defined.

(** ** Counting pulses of a periodic wire *)

Section Windows.
Variable f : nat -> bool.
Variable T : nat.
Hypothesis f_periodic : forall k : nat, f (k + T)%nat = f k.

Lemma window_shift (n : nat) :
  length (filter f (seq (S n) T)) = length (filter f (seq n T)).
Proof.
  assert (H : length (filter f (seq n (S T))) = length (filter f (seq n (S T)))) by reflexivity.
  rewrite seq_S in H at 1. rewrite filter_app, length_app in H.
  cbn [seq filter length] in H. rewrite f_periodic in H.
  destruct (f n); cbn [length] in H; lia.
Qed.

Lemma window_any (n : nat) :
  length (filter f (seq n T)) = length (filter f (seq 0 T)).
Proof.
  induction n as [|n IH]; [reflexivity|]. now rewrite window_shift.
Qed.

End Windows.

Lemma filter_none {A : Type} (f : A -> bool) (l : list A) :
  (forall x, In x l -> f x = false) -> filter f l = [].
Proof.
  induction l as [|x l IH]; intros H; [reflexivity|].
  cbn. rewrite (H x) by (left; reflexivity). apply IH. intros y Hy. apply H. now right.
Qed.

(** ** The timer inside the refresher *)

Section RefresherTimer.
Import Refresher.
Variable cfg : settings.
Hypothesis refresh_on : with_refresh cfg = true.
Hypothesis trefi_pos : 0 < tREFI cfg.

(** With refresh enabled the count is a sawtooth of period [tREFI], whatever
    the arbiter does. *)
Lemma timer_count (ready : nat -> bool) (n : nat) :
  RefreshTimer.count (timer (run cfg ready n))
  = tREFI cfg - 1 - Z.of_nat n mod tREFI cfg.
Proof.
  induction n as [|n IH].
  - change (Z.of_nat 0) with 0. rewrite Z.mod_0_l by lia. cbn. lia.
  - rewrite Nat2Z.inj_succ. unfold Z.succ. rewrite mod_succ by lia.
    cbn [run]. unfold next; cbn [timer]. unfold timer_reset. rewrite refresh_on.
    unfold RefreshTimer.next_gated. cbn [negb Migen.ResetInserter].
    unfold RefreshTimer.next, timer_inputs, timer_done, RefreshTimer.done.
    cbn [RefreshTimer.wait RefreshTimer.load RefreshTimer.load_count].
    rewrite IH.
    pose proof (Z.mod_pos_bound (Z.of_nat n) (tREFI cfg) trefi_pos) as Hb.
    pose proof (bits_for_fits (tREFI cfg) trefi_pos) as Hw.
    destruct (Z.eqb_spec (tREFI cfg - 1 - Z.of_nat n mod tREFI cfg) 0) as [H0|H0];
      destruct (Z.eqb_spec (Z.of_nat n mod tREFI cfg) (tREFI cfg - 1)) as [H1|H1];
      try lia; cbn.
    + lia.
    + rewrite trunc_small; unfold RefreshTimer.width; lia.
Qed.

Lemma timer_done_iff (ready : nat -> bool) (n : nat) :
  timer_done (run cfg ready n) = (Z.of_nat n mod tREFI cfg =? tREFI cfg - 1).
Proof.
  unfold timer_done, RefreshTimer.done. rewrite timer_count.
  destruct (Z.eqb_spec (tREFI cfg - 1 - Z.of_nat n mod tREFI cfg) 0),
           (Z.eqb_spec (Z.of_nat n mod tREFI cfg) (tREFI cfg - 1)); lia || reflexivity.
Qed.

Lemma timer_done_periodic (ready : nat -> bool) (k : nat) :
  timer_done (run cfg ready (k + Z.to_nat (tREFI cfg))) = timer_done (run cfg ready k).
Proof.
  rewrite !timer_done_iff. rewrite Nat2Z.inj_add, Z2Nat.id by lia.
  replace (Z.of_nat k + tREFI cfg) with (Z.of_nat k + 1 * tREFI cfg) by lia.
  rewrite Z.mod_add by lia. reflexivity.
Qed.

Lemma pulses_first_window (ready : nat -> bool) :
  pulses cfg ready 0 (Z.to_nat (tREFI cfg)) = 1%nat.
Proof.
  unfold pulses.
  destruct (Z.to_nat (tREFI cfg)) as [|T'] eqn:HT; [lia|].
  rewrite seq_S, filter_app. cbn [Nat.add].
  rewrite filter_none.
  - cbn [filter app]. rewrite timer_done_iff.
    rewrite Z.mod_small by lia.
    destruct (Z.eqb_spec (Z.of_nat T') (tREFI cfg - 1)); [reflexivity | lia].
  - intros k Hk. apply in_seq in Hk. rewrite timer_done_iff.
    rewrite Z.mod_small by lia.
    destruct (Z.eqb_spec (Z.of_nat k) (tREFI cfg - 1)); [lia | reflexivity].
Qed.

End RefresherTimer.

(** C1.  With refresh enabled (no reset, [wait] wired to the negation of
    [done]) and an interval above 0, every stretch of [tREFI] consecutive
    cycles has exactly one cycle with the timer's [done] high, for ever; the
    pulses are the cycles [n] with [n mod tREFI = tREFI - 1]; and in the
    cycle after a pulse the count is back at [tREFI - 1]. *)
Theorem timer_one_pulse_per_interval (cfg : Refresher.settings) (ready : nat -> bool) (n : nat) :
  Refresher.with_refresh cfg = true -> 0 < Refresher.tREFI cfg ->
  Refresher.pulses cfg ready n (Z.to_nat (Refresher.tREFI cfg)) = 1%nat /\
  Refresher.timer_done (Refresher.run cfg ready n)
    = (Z.of_nat n mod Refresher.tREFI cfg =? Refresher.tREFI cfg - 1) /\
  (Refresher.timer_done (Refresher.run cfg ready n) = true ->
   RefreshTimer.count (Refresher.timer (Refresher.run cfg ready (S n)))
     = Refresher.tREFI cfg - 1).
Proof.
  intros Hon HT. split; [|split].
  - unfold Refresher.pulses.
    rewrite window_any by (intros k; now apply timer_done_periodic).
    now apply pulses_first_window.
  - now apply timer_done_iff.
  - rewrite timer_done_iff by assumption. intros Hd. apply Z.eqb_eq in Hd.
    rewrite timer_count by assumption. rewrite Nat2Z.inj_succ. unfold Z.succ.
    rewrite mod_succ by lia. rewrite Hd, Z.eqb_refl. lia.
Qed.

Lemma timer_one_pulse_per_interval_witness :
  Refresher.pulses (Refresher.mkSettings 13 2 1 7 2 3 true) (fun k => Nat.even k) 5
    (Z.to_nat 7) = 1%nat /\
  Refresher.timer_done (Refresher.run (Refresher.mkSettings 13 2 1 7 2 3 true) (fun k => Nat.even k) 5)
    = (Z.of_nat 5 mod 7 =? 7 - 1) /\
  (Refresher.timer_done (Refresher.run (Refresher.mkSettings 13 2 1 7 2 3 true) (fun k => Nat.even k) 5) = true ->
   RefreshTimer.count (Refresher.timer (Refresher.run (Refresher.mkSettings 13 2 1 7 2 3 true) (fun k => Nat.even k) 6))
     = 7 - 1).
Proof.
  apply (timer_one_pulse_per_interval (Refresher.mkSettings 13 2 1 7 2 3 true) (fun k => Nat.even k) 5);
    [reflexivity | cbn; lia].
Defined.

(** ** RefreshSequencer *)

Section SequencerFacts.
Import Migen RefreshSequencer.
Variables (abits babits trp trfc : Z).
Hypothesis trp_pos : 0 < trp.
Hypothesis trfc_pos : 0 < trfc.

Lemma lastevent_events : lastevent (events trp trfc) = trp + trfc.
Proof. unfold lastevent, events; cbn [map fst fold_right]. lia. Qed.

Lemma counter_bits_events : counter_bits (events trp trfc) = bits_for (trp + trfc).
Proof.
  unfold counter_bits, bits_for_max. rewrite lastevent_events.
  replace (trp + trfc + 1 - 1) with (trp + trfc) by lia.
  rewrite bits_for_0, bits_for_pos by lia.
  pose proof (Z.log2_up_pos (trp + trfc + 1)). lia.
Qed.

(** The registers of the next cycle are read off the counter and [start] of
    the present one. *)
Lemma next_out (start : bool) (s : state) :
  out (next abits babits trp trfc start s)
  = {| a := trunc abits (2 ^ 10); ba := trunc babits 0;
       cas := counter s =? trp;
       ras := (start && (counter s =? 0)) || (counter s =? trp);
       we := start && (counter s =? 0);
       done := counter s =? trp + trfc |}.
Proof.
  unfold next, timeline, run_events, events, get_cond.
  cbn [fold_left fst snd out counter].
  change (0 =? 0) with true. cbv iota.
  destruct (Z.eqb_spec trp 0); [lia|].
  destruct (Z.eqb_spec (trp + trfc) 0); [lia|].
  destruct start, (counter s =? 0), (counter s =? trp), (counter s =? trp + trfc);
    reflexivity.
Qed.

Lemma next_counter (start : bool) (s : state) :
  0 <= counter s <= trp + trfc ->
  counter (next abits babits trp trfc start s)
  = if counter s =? 0 then (if start then 1 else 0)
    else if counter s =? trp + trfc then 0 else counter s + 1.
Proof.
  intros Hc. unfold next, timeline, counterlogic. cbn [fst counter].
  rewrite lastevent_events, counter_bits_events.
  pose proof (bits_for_fits (trp + trfc) ltac:(lia)) as Hw.
  destruct (Z.eqb_spec (counter s) 0) as [H0|H0]; cbn [negb].
  - rewrite H0. destruct (Z.eqb_spec 0 (trp + trfc)); [lia|].
    assert (H1 : trunc (bits_for (trp + trfc)) 1 = 1) by (apply trunc_small; lia).
    rewrite H1. destruct (Z.land _ _ =? 0), start; reflexivity.
  - destruct (Z.eqb_spec (counter s) (trp + trfc)) as [HL|HL].
    + destruct (Z.eqb_spec (Z.land (trp + trfc) (trp + trfc + 1)) 0) as [Hp|Hp]; cbn [negb].
      * rewrite HL, (land_succ_pow2 (trp + trfc)) by (lia || assumption).
        unfold trunc. apply Z.mod_same. lia.
      * apply trunc_small. lia.
    + assert (H1 : trunc (bits_for (trp + trfc)) (counter s + 1) = counter s + 1)
        by (apply trunc_small; lia).
      rewrite H1. destruct (Z.land _ _ =? 0); reflexivity.
Qed.

Lemma counter_start_at (p k : nat) :
  counter (run abits babits trp trfc (start_at p) k) = counter_after trp trfc p k.
Proof.
  induction k as [|k IH].
  - unfold counter_after. cbn [run reset_state counter].
    destruct (Z.leb_spec (Z.of_nat 0 - Z.of_nat p) 0); [reflexivity | lia].
  - cbn [run]. rewrite next_counter; rewrite IH; unfold counter_after, start_at.
    + rewrite Nat2Z.inj_succ. unfold Z.succ.
      destruct (Nat.eqb_spec k p),
               (Z.leb_spec (Z.of_nat k - Z.of_nat p) 0),
               (Z.leb_spec (Z.of_nat k - Z.of_nat p) (trp + trfc)),
               (Z.leb_spec (Z.of_nat k + 1 - Z.of_nat p) 0),
               (Z.leb_spec (Z.of_nat k + 1 - Z.of_nat p) (trp + trfc));
        repeat match goal with
               | |- context [?x =? ?y] => destruct (Z.eqb_spec x y)
               end; lia.
    + destruct (Z.leb_spec (Z.of_nat k - Z.of_nat p) 0),
               (Z.leb_spec (Z.of_nat k - Z.of_nat p) (trp + trfc)); lia.
Qed.

Lemma counter_never (k : nat) :
  counter (run abits babits trp trfc never k) = 0.
Proof.
  induction k as [|k IH]; [reflexivity|].
  cbn [run]. rewrite next_counter; rewrite IH; [reflexivity | lia].
Qed.

(** The registers in cycle [k] after a single trigger in cycle [p]. *)
Lemma out_start_at (p k : nat) :
  let r := out (run abits babits trp trfc (start_at p) k) in
  cas r = (Z.of_nat k =? Z.of_nat p + 1 + trp) /\
  ras r = ((Z.of_nat k =? Z.of_nat p + 1) || (Z.of_nat k =? Z.of_nat p + 1 + trp)) /\
  we r = (Z.of_nat k =? Z.of_nat p + 1) /\
  done r = (Z.of_nat k =? Z.of_nat p + 1 + trp + trfc).
Proof.
  destruct k as [|k].
  - cbn [run reset_state out cas ras we done]. change (Z.of_nat 0) with 0.
    repeat match goal with
           | |- context [?x =? ?y] => destruct (Z.eqb_spec x y)
           end; try lia; repeat split; reflexivity.
  - cbn [run]. cbv zeta. rewrite next_out. cbn [cas ras we done].
    rewrite counter_start_at. unfold counter_after, start_at.
    rewrite Nat2Z.inj_succ. unfold Z.succ.
    destruct (Nat.eqb_spec k p),
             (Z.leb_spec (Z.of_nat k - Z.of_nat p) 0),
             (Z.leb_spec (Z.of_nat k - Z.of_nat p) (trp + trfc));
      repeat match goal with
             | |- context [?x =? ?y] => destruct (Z.eqb_spec x y)
             end; try lia; repeat split; reflexivity.
Qed.

Lemma done_never (k : nat) :
  done (out (run abits babits trp trfc never k)) = false.
Proof.
  destruct k as [|k]; [reflexivity|].
  cbn [run]. rewrite next_out. cbn [done]. rewrite counter_never.
  destruct (Z.eqb_spec 0 (trp + trfc)); [lia | reflexivity].
Qed.

End SequencerFacts.

(** C2, as the code has it.  With [tRP] and [tRFC] above 0 and [start] high
    in cycle [p] only, the sequencer's [done] register is high in exactly one
    cycle, cycle [p + tRP + tRFC + 1]: the strobes and [done] are registers,
    so each shows one cycle after the counter value that schedules it.  With
    [start] never high, [done] is low in every cycle. *)
Theorem sequencer_done_once (abits babits trp trfc : Z) (p k : nat) :
  0 < trp -> 0 < trfc ->
  RefreshSequencer.done (RefreshSequencer.out
    (RefreshSequencer.run abits babits trp trfc (RefreshSequencer.start_at p) k))
  = (Z.of_nat k =? Z.of_nat p + trp + trfc + 1) /\
  RefreshSequencer.done (RefreshSequencer.out
    (RefreshSequencer.run abits babits trp trfc RefreshSequencer.never k)) = false.
Proof.
  intros Hrp Hrfc. split.
  - destruct (out_start_at abits babits trp trfc Hrp Hrfc p k) as (_ & _ & _ & Hd).
    rewrite Hd. f_equal. lia.
  - now apply done_never.
Qed.

Lemma sequencer_done_once_witness :
  RefreshSequencer.done (RefreshSequencer.out
    (RefreshSequencer.run 13 2 5 10 (RefreshSequencer.start_at 3) 19))
  = (Z.of_nat 19 =? Z.of_nat 3 + 5 + 10 + 1) /\
  RefreshSequencer.done (RefreshSequencer.out
    (RefreshSequencer.run 13 2 5 10 RefreshSequencer.never 19)) = false.
Proof.
  apply (sequencer_done_once 13 2 5 10 3 19); lia.
Defined.

(** C2 as stated fails: with [tRP = 5], [tRFC = 10] and the trigger in cycle
    0, [done] is low 15 cycles after the trigger and high 16 cycles after
    it. *)
Lemma sequencer_done_not_at_trp_trfc :
  RefreshSequencer.done (RefreshSequencer.out
    (RefreshSequencer.run 13 2 5 10 (RefreshSequencer.start_at 0) 15)) = false /\
  RefreshSequencer.done (RefreshSequencer.out
    (RefreshSequencer.run 13 2 5 10 (RefreshSequencer.start_at 0) 16)) = true.
Proof. split; vm_compute; reflexivity. Qed.

(** C3, as the code has it.  After a single trigger in cycle [p]: [ras] and
    [we] are high together in cycle [p + 1] only, [cas] and [ras] in cycle
    [p + 1 + tRP] only, and in every other cycle the three strobes are low.
    The two commands are [tRP] cycles apart; each shows one cycle after the
    counter value that schedules it. *)
Theorem sequencer_strobes (abits babits trp trfc : Z) (p k : nat) :
  0 < trp -> 0 < trfc ->
  let r := RefreshSequencer.out
             (RefreshSequencer.run abits babits trp trfc (RefreshSequencer.start_at p) k) in
  RefreshSequencer.we r = (Z.of_nat k =? Z.of_nat p + 1) /\
  RefreshSequencer.cas r = (Z.of_nat k =? Z.of_nat p + 1 + trp) /\
  RefreshSequencer.ras r
    = ((Z.of_nat k =? Z.of_nat p + 1) || (Z.of_nat k =? Z.of_nat p + 1 + trp)).
Proof.
  intros Hrp Hrfc r.
  destruct (out_start_at abits babits trp trfc Hrp Hrfc p k) as (Hc & Hr & Hw & _).
  fold r in Hc, Hr, Hw. rewrite Hw, Hc, Hr. repeat split.
Qed.

Lemma sequencer_strobes_witness :
  let r := RefreshSequencer.out
             (RefreshSequencer.run 13 2 5 10 (RefreshSequencer.start_at 3) 9) in
  RefreshSequencer.we r = (Z.of_nat 9 =? Z.of_nat 3 + 1) /\
  RefreshSequencer.cas r = (Z.of_nat 9 =? Z.of_nat 3 + 1 + 5) /\
  RefreshSequencer.ras r
    = ((Z.of_nat 9 =? Z.of_nat 3 + 1) || (Z.of_nat 9 =? Z.of_nat 3 + 1 + 5)).
Proof.
  apply (sequencer_strobes 13 2 5 10 3 9); lia.
Defined.

(** C3 as stated fails: with [tRP = 5], [tRFC = 10] and the trigger in cycle
    0, no strobe is high in the trigger cycle (offset 0) nor at offset 5;
    [ras] and [we] are high at offset 1 and [cas] and [ras] at offset 6. *)
Lemma sequencer_strobes_not_at_offset_0 :
  let r := fun k => RefreshSequencer.out
             (RefreshSequencer.run 13 2 5 10 (RefreshSequencer.start_at 0) k) in
  (RefreshSequencer.ras (r 0%nat), RefreshSequencer.we (r 0%nat)) = (false, false) /\
  (RefreshSequencer.ras (r 1%nat), RefreshSequencer.we (r 1%nat)) = (true, true) /\
  (RefreshSequencer.cas (r 5%nat), RefreshSequencer.ras (r 5%nat)) = (false, false) /\
  (RefreshSequencer.cas (r 6%nat), RefreshSequencer.ras (r 6%nat)) = (true, true).
Proof. vm_compute. repeat split. Qed.

(** ** The refresh state machine *)

Section RefresherFacts.
Import Refresher.
Variable cfg : settings.
Hypothesis trp_pos : 0 < tRP cfg.
Hypothesis trfc_pos : 0 < tRFC cfg.

Lemma next_sequencer (r : bool) (s : state) :
  sequencer (next cfg r s)
  = RefreshSequencer.next (abits cfg) (babits cfg) (tRP cfg) (tRFC cfg)
      (sequencer_start (wires r s)) (sequencer s).
Proof. reflexivity. Qed.

Lemma next_sequencer_done (r : bool) (s : state) :
  sequencer_done (next cfg r s)
  = (RefreshSequencer.counter (sequencer s) =? tRP cfg + tRFC cfg).
Proof.
  unfold sequencer_done. rewrite next_sequencer, next_out by assumption. reflexivity.
Qed.

Lemma next_counter_refresher (r : bool) (s : state) :
  0 <= RefreshSequencer.counter (sequencer s) <= tRP cfg + tRFC cfg ->
  RefreshSequencer.counter (sequencer (next cfg r s))
  = if RefreshSequencer.counter (sequencer s) =? 0
    then (if sequencer_start (wires r s) then 1 else 0)
    else if RefreshSequencer.counter (sequencer s) =? tRP cfg + tRFC cfg then 0
    else RefreshSequencer.counter (sequencer s) + 1.
Proof.
  intros H. rewrite next_sequencer. now apply next_counter.
Qed.

Ltac eqb_cases :=
  repeat match goal with
         | |- context [?x =? ?y] => destruct (Z.eqb_spec x y)
         | H : context [?x =? ?y] |- _ => destruct (Z.eqb_spec x y)
         end.

Lemma inv_next (r : bool) (s : state) : inv cfg s -> inv cfg (next cfg r s).
Proof.
  unfold inv. cbv zeta. intros H.
  rewrite next_sequencer_done.
  assert (Hc : 0 <= RefreshSequencer.counter (sequencer s) <= tRP cfg + tRFC cfg)
    by (destruct (fsm s); lia).
  rewrite next_counter_refresher by assumption.
  unfold next; cbn [fsm]. unfold wires.
  destruct (fsm s) eqn:Hf; cbn [fsm_act].
  - destruct H as [H0 Hd]. rewrite H0. cbn [next_state sequencer_start].
    destruct (timer_done s); eqb_cases; try lia; split; reflexivity.
  - destruct H as [H0 Hd]. rewrite H0. cbn [next_state sequencer_start].
    destruct r; eqb_cases; try lia; cbv iota;
      first [split; reflexivity | left; split; [lia | reflexivity]].
  - destruct H as [[Hr Hd] | [H0 Hd]]; rewrite Hd; cbn [next_state sequencer_start].
    + eqb_cases; try lia; cbv iota;
        first [right; split; [lia | reflexivity] | left; split; [lia | reflexivity]].
    + rewrite H0. eqb_cases; try lia; split; reflexivity.
Qed.

Lemma inv_run (ready : nat -> bool) (n : nat) : inv cfg (run cfg ready n).
Proof.
  induction n as [|n IH].
  - unfold inv; cbn. split; reflexivity.
  - cbn [run]. now apply inv_next.
Qed.

(** [done] is high only in WAIT-SEQUENCER, so [cmd.last] and the sequencer's
    [done] coincide in every cycle. *)
Lemma last_is_done (ready : nat -> bool) (n : nat) :
  last (run cfg ready n) = sequencer_done (run cfg ready n).
Proof.
  pose proof (inv_run ready n) as H. unfold inv in H. cbv zeta in H.
  unfold last, wires. destruct (fsm (run cfg ready n)); cbn [fsm_act].
  - destruct H as [_ ->]. reflexivity.
  - destruct H as [_ ->]. reflexivity.
  - destruct (sequencer_done (run cfg ready n)); reflexivity.
Qed.

(** From a grant in cycle [n], the machine is in WAIT-SEQUENCER through
    cycles [n + 1 .. n + tRP + tRFC + 1]; the counter shows the offset and
    [done] is high in the last of them only. *)
Lemma sequence_runs (ready : nat -> bool) (n : nat) :
  fsm (run cfg ready n) = WAIT_CONTROLLER_GRANT -> ready n = true ->
  forall j : nat, 1 <= Z.of_nat j <= tRP cfg + tRFC cfg + 1 ->
  let s := run cfg ready (n + j) in
  fsm s = WAIT_SEQUENCER /\
  RefreshSequencer.counter (sequencer s)
    = (if Z.of_nat j =? tRP cfg + tRFC cfg + 1 then 0 else Z.of_nat j) /\
  sequencer_done s = (Z.of_nat j =? tRP cfg + tRFC cfg + 1).
Proof.
  intros Hf Hr j. induction j as [|j IH]; [lia|]. intros Hj. cbv zeta.
  rewrite Nat.add_succ_r. cbn [run].
  rewrite next_sequencer_done.
  destruct j as [|j'].
  - rewrite Nat.add_0_r.
    pose proof (inv_run ready n) as Hi. unfold inv in Hi. cbv zeta in Hi.
    rewrite Hf in Hi. destruct Hi as [H0 Hd].
    rewrite next_counter_refresher by lia.
    unfold next, wires; cbn [fsm]. rewrite Hf, H0, Hr. cbn [fsm_act next_state sequencer_start].
    change (Z.of_nat 1) with 1.
    eqb_cases; try lia; repeat split.
  - specialize (IH ltac:(lia)). cbv zeta in IH.
    destruct IH as (Hs & Hc & Hd).
    destruct (Z.eqb_spec (Z.of_nat (S j')) (tRP cfg + tRFC cfg + 1)) as [He|He]; [lia|].
    rewrite next_counter_refresher by lia.
    unfold next, wires; cbn [fsm]. rewrite Hs, Hd, Hc. cbn [fsm_act next_state sequencer_start].
    rewrite (Nat2Z.inj_succ (S j')). unfold Z.succ.
    eqb_cases; try lia; repeat split.
Qed.

End RefresherFacts.

(** C4.  In every cycle of every run, [cmd.valid] is high exactly when the
    machine is in WAIT-CONTROLLER-GRANT, or in WAIT-SEQUENCER with the
    sequencer's [done] still low (before the completion cycle); in IDLE it
    is low. *)
Theorem valid_only_while_requesting (cfg : Refresher.settings) (ready : nat -> bool) (n : nat) :
  let s := Refresher.run cfg ready n in
  (Refresher.valid s = true <->
     Refresher.fsm s = Refresher.WAIT_CONTROLLER_GRANT \/
     (Refresher.fsm s = Refresher.WAIT_SEQUENCER /\ Refresher.sequencer_done s = false)) /\
  (Refresher.fsm s = Refresher.IDLE -> Refresher.valid s = false).
Proof.
  cbv zeta. unfold Refresher.valid, Refresher.wires.
  destruct (Refresher.fsm (Refresher.run cfg ready n));
    destruct (Refresher.sequencer_done (Refresher.run cfg ready n));
    cbn [Refresher.fsm_act Refresher.cmd_valid]; split;
    try (intros; reflexivity || discriminate);
    (split; [intros H; try discriminate; auto | intros [H | [H1 H2]]; congruence]).
Qed.

(** C5.  With [tRP] and [tRFC] above 0, in every run: [cmd.last] equals the
    sequencer's [done] in every cycle; a cycle with [cmd.last] high is spent
    in WAIT-SEQUENCER and is followed by a cycle in IDLE; and after a grant
    in cycle [n] the machine is in WAIT-SEQUENCER for the next
    [tRP + tRFC + 1] cycles, with [cmd.last] high in the last of them and in
    no other. *)
Theorem final_once_per_cycle (cfg : Refresher.settings) (ready : nat -> bool) :
  0 < Refresher.tRP cfg -> 0 < Refresher.tRFC cfg ->
  (forall n : nat,
     Refresher.last (Refresher.run cfg ready n)
     = Refresher.sequencer_done (Refresher.run cfg ready n)) /\
  (forall n : nat,
     Refresher.last (Refresher.run cfg ready n) = true ->
     Refresher.fsm (Refresher.run cfg ready n) = Refresher.WAIT_SEQUENCER /\
     Refresher.fsm (Refresher.run cfg ready (S n)) = Refresher.IDLE) /\
  (forall n : nat,
     Refresher.fsm (Refresher.run cfg ready n) <> Refresher.WAIT_SEQUENCER ->
     Refresher.last (Refresher.run cfg ready n) = false) /\
  (forall n : nat,
     Refresher.fsm (Refresher.run cfg ready n) = Refresher.WAIT_CONTROLLER_GRANT ->
     ready n = true ->
     forall j : nat, 1 <= Z.of_nat j <= Refresher.tRP cfg + Refresher.tRFC cfg + 1 ->
       Refresher.fsm (Refresher.run cfg ready (n + j)) = Refresher.WAIT_SEQUENCER /\
       Refresher.last (Refresher.run cfg ready (n + j))
       = (Z.of_nat j =? Refresher.tRP cfg + Refresher.tRFC cfg + 1)).
Proof.
  intros Hrp Hrfc. split; [|split; [|split]].
  - intros n. now apply last_is_done.
  - intros n Hl.
    assert (Hw : Refresher.fsm (Refresher.run cfg ready n) = Refresher.WAIT_SEQUENCER /\
                 Refresher.sequencer_done (Refresher.run cfg ready n) = true).
    { unfold Refresher.last, Refresher.wires in Hl.
      destruct (Refresher.fsm (Refresher.run cfg ready n));
        destruct (Refresher.sequencer_done (Refresher.run cfg ready n));
        cbn in Hl; try discriminate. split; reflexivity. }
    destruct Hw as [Hs Hd]. split; [exact Hs|].
    cbn [Refresher.run]. unfold Refresher.next, Refresher.wires; cbn [Refresher.fsm].
    rewrite Hs, Hd. reflexivity.
  - intros n Hs. unfold Refresher.last, Refresher.wires.
    destruct (Refresher.fsm (Refresher.run cfg ready n)); [reflexivity | reflexivity | congruence].
  - intros n Hs Hr j Hj.
    destruct (sequence_runs cfg Hrp Hrfc ready n Hs Hr j Hj) as (Hf & _ & Hd).
    split; [exact Hf|]. rewrite last_is_done by assumption. exact Hd.
Qed.

Lemma final_once_per_cycle_witness :
  let cfg := Refresher.mkSettings 13 2 1 7 2 3 true in
  let ready := fun k : nat => Nat.leb 9 k in
  (Refresher.fsm (Refresher.run cfg ready 9) = Refresher.WAIT_CONTROLLER_GRANT /\
   ready 9%nat = true) /\
  Refresher.fsm (Refresher.run cfg ready (9 + 6)) = Refresher.WAIT_SEQUENCER /\
  Refresher.last (Refresher.run cfg ready (9 + 6)) = (Z.of_nat 6 =? 2 + 3 + 1).
Proof.
  cbv zeta. split; [split; reflexivity|].
  apply (final_once_per_cycle (Refresher.mkSettings 13 2 1 7 2 3 true) (fun k : nat => Nat.leb 9 k));
    [cbn; lia | cbn; lia | reflexivity | reflexivity | cbn; lia].
Defined.

(** C10.  In every cycle of every run [cmd.valid] and [cmd.last] are not
    high together; in the completion cycle (WAIT-SEQUENCER with the
    sequencer's [done] high) [cmd.valid] is low and [cmd.last] is high. *)
Theorem valid_and_last_exclusive (cfg : Refresher.settings) (ready : nat -> bool) (n : nat) :
  let s := Refresher.run cfg ready n in
  Refresher.valid s && Refresher.last s = false /\
  (Refresher.fsm s = Refresher.WAIT_SEQUENCER -> Refresher.sequencer_done s = true ->
   Refresher.valid s = false /\ Refresher.last s = true).
Proof.
  cbv zeta. unfold Refresher.valid, Refresher.last, Refresher.wires.
  destruct (Refresher.fsm (Refresher.run cfg ready n));
    destruct (Refresher.sequencer_done (Refresher.run cfg ready n));
    cbn [Refresher.fsm_act Refresher.cmd_valid Refresher.cmd_last]; split;
    try reflexivity; intros; try discriminate; split; reflexivity.
Qed.

(** ** The scenario tREFI = 100, tRP = 5, tRFC = 10 *)

Section Scenario.
Import Refresher.
Variables (a b r : Z).

Lemma scenario_timer_pulses (ready : nat -> bool) (k : nat) :
  timer_done (at_step (scenario a b r) ready (S k)) = (Z.of_nat (S k) mod 100 =? 0).
Proof.
  unfold at_step. cbn [Nat.pred].
  rewrite (timer_done_iff (scenario a b r) eq_refl) by (cbn; lia). cbn [tREFI scenario].
  rewrite Nat2Z.inj_succ. unfold Z.succ. rewrite mod_succ by lia.
  destruct (Z.eqb_spec (Z.of_nat k mod 100) (100 - 1)); [reflexivity|].
  pose proof (Z.mod_pos_bound (Z.of_nat k) 100 ltac:(lia)).
  destruct (Z.eqb_spec (Z.of_nat k mod 100 + 1) 0); [lia | reflexivity].
Qed.

End Scenario.

(** C8, as the code has it.  In the run with tREFI = 100, tRP = 5,
    tRFC = 10, refresh enabled and an arbiter that grants at once, steps
    counted from 1: the timer's [done] is high at steps 100, 200, 300, ...
    and at no other step; [cmd.valid] is first high at step 101 (the state
    machine leaves IDLE one step after the pulse) and is granted in that
    step; [ras] and [we] are high at step 102 only, [cas] and [ras] at step
    107 only; the sequencer's [done] and [cmd.last] are high at step 117
    only; [cmd.valid] is high through steps 101 .. 116; the machine is out of
    IDLE through steps 101 .. 117 and back in IDLE at step 118; the next
    timer pulse is at step 200. *)
Theorem scenario_run (a b r : Z) :
  let cfg := Refresher.scenario a b r in
  let at_ := Refresher.at_step cfg Refresher.always_ready in
  let high := Refresher.steps_where cfg Refresher.always_ready in
  (forall k : nat, Refresher.timer_done (at_ (S k)) = (Z.of_nat (S k) mod 100 =? 0)) /\
  high Refresher.timer_done 300%nat = [100; 200; 300]%nat /\
  high Refresher.valid 200%nat = seq 101 16 /\
  (Refresher.fsm (at_ 101%nat) = Refresher.WAIT_CONTROLLER_GRANT /\
   Refresher.always_ready 100%nat = true /\
   Refresher.fsm (at_ 102%nat) = Refresher.WAIT_SEQUENCER) /\
  (high Refresher.we_high 200%nat = [102]%nat /\
   high Refresher.cas_high 200%nat = [107]%nat /\
   high Refresher.ras_high 200%nat = [102; 107]%nat) /\
  (high Refresher.sequencer_done 200%nat = [117]%nat /\
   high Refresher.last 200%nat = [117]%nat) /\
  (high (fun s => negb (Refresher.is_idle s)) 200%nat = seq 101 17 /\
   Refresher.fsm (at_ 118%nat) = Refresher.IDLE).
Proof.
  cbv zeta. split.
  - intros k. apply scenario_timer_pulses.
  - vm_compute. repeat split.
Qed.

(** C8 as stated fails.  Counting steps from 1 (so that the first pulse is
    at step 100): at step 100 the machine is still in IDLE with [cmd.valid]
    and every strobe low, at step 105 no strobe is high, at step 115 the
    sequencer's [done] and [cmd.last] are low, and at step 116 the machine is
    still in WAIT-SEQUENCER.  Counting cycles from 0 instead does not help:
    the timer's [done] is then low in cycle 100. *)
Lemma scenario_not_as_stated :
  let at_ := Refresher.at_step (Refresher.scenario 13 2 1) Refresher.always_ready in
  (Refresher.timer_done (at_ 100%nat) = true /\
   Refresher.fsm (at_ 100%nat) = Refresher.IDLE /\
   Refresher.valid (at_ 100%nat) = false /\
   Refresher.strobes (at_ 100%nat) = (false, false, false) /\
   Refresher.strobes (at_ 105%nat) = (false, false, false) /\
   Refresher.sequencer_done (at_ 115%nat) = false /\
   Refresher.last (at_ 115%nat) = false /\
   Refresher.fsm (at_ 116%nat) = Refresher.WAIT_SEQUENCER) /\
  Refresher.timer_done
    (Refresher.run (Refresher.scenario 13 2 1) Refresher.always_ready 100) = false.
Proof. vm_compute. repeat split. Qed.

(** * Further properties of the code *)

(** ** RefreshTimer under arbitrary inputs *)

Section TimerInputs.
Import RefreshTimer.
Variable trefi : Z.

Lemma next_gated_range (ri : bool * inputs) (s : state) :
  0 < trefi -> 0 <= count s <= trefi - 1 -> load_unsigned ri = true ->
  0 <= count (next_gated trefi (fst ri) s (snd ri)) <= trefi - 1.
Proof.
  intros HT Hs Hl. unfold load_unsigned in Hl. apply Z.leb_le in Hl.
  pose proof (bits_for_fits trefi HT) as Hw. fold (width trefi) in Hw.
  destruct ri as [rst i]. cbn [fst snd] in *.
  unfold next_gated, Migen.ResetInserter, next, done, reset_state.
  destruct rst; cbn [count]; [lia|].
  destruct (wait i); cbn [count]; [|lia].
  destruct (Z.eqb_spec (count s) 0); cbn [negb]; [lia|].
  destruct (load i); cbn [andb].
  - destruct (Z.ltb_spec (load_count i) (count s)); cbn [count];
      rewrite trunc_small; lia.
  - cbn [count]. rewrite trunc_small; lia.
Qed.

(** An enabled cycle never raises the count, and lowers it unless it is 0. *)
Lemma next_gated_on (ri : bool * inputs) (s : state) :
  0 <= count s < 2 ^ width trefi -> gate_on ri = true -> load_unsigned ri = true ->
  let s' := next_gated trefi (fst ri) s (snd ri) in
  0 <= count s' < 2 ^ width trefi /\ count s' <= Z.max 0 (count s - 1).
Proof.
  intros Hs Hon Hl. unfold load_unsigned in Hl. apply Z.leb_le in Hl.
  destruct ri as [rst i]. unfold gate_on, gate_off in Hon. cbn [fst snd] in *.
  destruct rst; [discriminate|]. destruct (wait i) eqn:Hwait; [|discriminate].
  cbv zeta. unfold next_gated, Migen.ResetInserter, next, done. rewrite Hwait.
  destruct (Z.eqb_spec (count s) 0); cbn [negb]; [lia|].
  destruct (load i); cbn [andb].
  - destruct (Z.ltb_spec (load_count i) (count s)); cbn [count];
      rewrite trunc_small; lia.
  - cbn [count]. rewrite trunc_small; lia.
Qed.

End TimerInputs.

(** X1.  Whatever the reset, [wait], [load] and [load_count] inputs do, a
    count that starts within [0 .. trefi - 1] stays there: a reload can only
    lower it and the decrement stops at 0, so the register never wraps. *)
Theorem timer_count_in_range (trefi : Z) (ins : list (bool * RefreshTimer.inputs)) :
  forall s : RefreshTimer.state,
  0 < trefi -> 0 <= RefreshTimer.count s <= trefi - 1 ->
  forallb RefreshTimer.load_unsigned ins = true ->
  0 <= RefreshTimer.count (RefreshTimer.run_gated trefi ins s) <= trefi - 1.
Proof.
  induction ins as [|ri ins IH]; intros s HT Hs Hl.
  - exact Hs.
  - cbn [forallb] in Hl. apply andb_true_iff in Hl as [Hri Hins].
    unfold RefreshTimer.run_gated. cbn [fold_left].
    apply (IH _ HT); [now apply next_gated_range | assumption].
Qed.

Lemma timer_count_in_range_witness :
  0 <= RefreshTimer.count (RefreshTimer.run_gated 100
         [(false, RefreshTimer.mkInputs true true 7); (false, RefreshTimer.mkInputs true true 90);
          (true, RefreshTimer.mkInputs true false 0); (false, RefreshTimer.mkInputs true false 0)]
         (RefreshTimer.mkState 42)) <= 100 - 1.
Proof.
  apply (timer_count_in_range 100
           [(false, RefreshTimer.mkInputs true true 7); (false, RefreshTimer.mkInputs true true 90);
            (true, RefreshTimer.mkInputs true false 0); (false, RefreshTimer.mkInputs true false 0)]
           (RefreshTimer.mkState 42)); [lia | cbn; lia | reflexivity].
Defined.

(** X2.  While the gate stays on, no pattern of reloads delays the pulse:
    from a count [c], after any [c] or more enabled cycles [done] is high,
    and it stays high for as long as [wait] stays high (the count holds at
    0). *)
Theorem loads_never_delay_pulse (trefi : Z) (ins : list (bool * RefreshTimer.inputs)) :
  forall s : RefreshTimer.state,
  0 <= RefreshTimer.count s < 2 ^ RefreshTimer.width trefi ->
  forallb RefreshTimer.gate_on ins = true ->
  forallb RefreshTimer.load_unsigned ins = true ->
  RefreshTimer.count s <= Z.of_nat (length ins) ->
  RefreshTimer.done (RefreshTimer.run_gated trefi ins s) = true.
Proof.
  induction ins as [|ri ins IH]; intros s Hs Hon Hl Hlen.
  - cbn [length] in Hlen. unfold RefreshTimer.run_gated, RefreshTimer.done. cbn [fold_left].
    apply Z.eqb_eq. change (Z.of_nat 0) with 0 in Hlen. lia.
  - cbn [forallb] in Hon, Hl.
    apply andb_true_iff in Hon as [Hon1 Hon]. apply andb_true_iff in Hl as [Hl1 Hl].
    destruct (next_gated_on trefi ri s Hs Hon1 Hl1) as [Hr Hle].
    unfold RefreshTimer.run_gated. cbn [fold_left].
    apply IH; try assumption.
    cbn [length] in Hlen. rewrite Nat2Z.inj_succ in Hlen. lia.
Qed.

Lemma loads_never_delay_pulse_witness :
  RefreshTimer.done (RefreshTimer.run_gated 100
    [(false, RefreshTimer.mkInputs true true 50); (false, RefreshTimer.mkInputs true false 0);
     (false, RefreshTimer.mkInputs true true 0); (false, RefreshTimer.mkInputs true true 9)]
    (RefreshTimer.mkState 4)) = true.
Proof.
  apply (loads_never_delay_pulse 100
    [(false, RefreshTimer.mkInputs true true 50); (false, RefreshTimer.mkInputs true false 0);
     (false, RefreshTimer.mkInputs true true 0); (false, RefreshTimer.mkInputs true true 9)]
    (RefreshTimer.mkState 4)); [vm_compute; split; [discriminate | reflexivity] | reflexivity | reflexivity | cbn; lia].
Defined.

(** ** RefreshSequencer under an arbitrary [start] *)

Section SequencerStreams.
Import Migen RefreshSequencer.
Variables (abits babits trp trfc : Z).
Hypothesis trp_pos : 0 < trp.
Hypothesis trfc_pos : 0 < trfc.
Variable start : nat -> bool.

Ltac zcases :=
  repeat match goal with
         | |- context [?x =? ?y] => destruct (Z.eqb_spec x y)
         | H : context [?x =? ?y] |- _ => destruct (Z.eqb_spec x y)
         end.

Lemma counter_range (k : nat) :
  0 <= counter (run abits babits trp trfc start k) <= trp + trfc.
Proof.
  induction k as [|k IH]; [cbn; lia|].
  cbn [run]. rewrite next_counter by assumption.
  destruct (start k); zcases; lia.
Qed.

Lemma counter_step (k : nat) :
  counter (run abits babits trp trfc start (S k))
  = let c := counter (run abits babits trp trfc start k) in
    if c =? 0 then (if start k then 1 else 0)
    else if c =? trp + trfc then 0 else c + 1.
Proof.
  cbn [run]. rewrite next_counter; [reflexivity | assumption | assumption | apply counter_range].
Qed.

Lemma out_step (k : nat) :
  let c := counter (run abits babits trp trfc start k) in
  let r := out (run abits babits trp trfc start (S k)) in
  cas r = (c =? trp) /\
  ras r = ((start k && (c =? 0)) || (c =? trp)) /\
  we r = (start k && (c =? 0)) /\
  done r = (c =? trp + trfc).
Proof.
  cbv zeta. cbn [run]. rewrite next_out by assumption. cbn [cas ras we done].
  repeat split.
Qed.

(** Once the counter has left 0 it counts on whatever [start] does. *)
Lemma counter_runs_on (k : nat) (j : nat) :
  1 <= counter (run abits babits trp trfc start k) ->
  counter (run abits babits trp trfc start k) + Z.of_nat j <= trp + trfc ->
  counter (run abits babits trp trfc start (k + j))
  = counter (run abits babits trp trfc start k) + Z.of_nat j.
Proof.
  intros H1. induction j as [|j IH]; intros Hj.
  - rewrite Nat.add_0_r. change (Z.of_nat 0) with 0. lia.
  - rewrite Nat.add_succ_r, counter_step. cbv zeta.
    rewrite IH by lia. rewrite Nat2Z.inj_succ in *. zcases; lia.
Qed.

(** A counter that shows [c > 0] was started [c] cycles earlier by a
    trigger that found it at 0. *)
Lemma counter_origin (k : nat) :
  1 <= counter (run abits babits trp trfc start k) ->
  exists k0 : nat,
    Z.of_nat k = Z.of_nat k0 + counter (run abits babits trp trfc start k) /\
    start k0 = true /\ counter (run abits babits trp trfc start k0) = 0.
Proof.
  induction k as [|k IH]; [cbn; lia|].
  rewrite counter_step. cbv zeta.
  pose proof (counter_range k) as Hr.
  destruct (Z.eqb_spec (counter (run abits babits trp trfc start k)) 0) as [H0|H0].
  - destruct (start k) eqn:Hs; cbv iota; [|lia]. intros _. exists k.
    rewrite Nat2Z.inj_succ. split; [lia | split; assumption].
  - destruct (Z.eqb_spec (counter (run abits babits trp trfc start k)) (trp + trfc));
      cbv iota; [lia|].
    intros _. destruct (IH ltac:(lia)) as (k0 & Hk & Hs & Hc).
    exists k0. rewrite Nat2Z.inj_succ. split; [lia | split; assumption].
Qed.

End SequencerStreams.

(** X3.  Whatever [start] does, in every cycle the three strobes form one
    of three patterns: none high, [ras] and [we] high (precharge all), or
    [cas] and [ras] high (auto refresh); and no strobe is high in a cycle in
    which [done] is high. *)
Theorem sequencer_commands_legal (abits babits trp trfc : Z) (start : nat -> bool) (k : nat) :
  0 < trp -> 0 < trfc ->
  let r := RefreshSequencer.out (RefreshSequencer.run abits babits trp trfc start k) in
  ((RefreshSequencer.cas r, RefreshSequencer.ras r, RefreshSequencer.we r) = (false, false, false) \/
   (RefreshSequencer.cas r, RefreshSequencer.ras r, RefreshSequencer.we r) = (false, true, true) \/
   (RefreshSequencer.cas r, RefreshSequencer.ras r, RefreshSequencer.we r) = (true, true, false)) /\
  (RefreshSequencer.done r = true ->
   (RefreshSequencer.cas r, RefreshSequencer.ras r, RefreshSequencer.we r) = (false, false, false)).
Proof.
  intros Hrp Hrfc. cbv zeta. destruct k as [|k].
  - cbn. split; [left; reflexivity | discriminate].
  - destruct (out_step abits babits trp trfc Hrp Hrfc start k) as (Hc & Hr & Hw & Hd).
    cbv zeta in Hc, Hr, Hw, Hd. rewrite Hc, Hr, Hw, Hd.
    destruct (start k);
      destruct (Z.eqb_spec (RefreshSequencer.counter (RefreshSequencer.run abits babits trp trfc start k)) 0);
      destruct (Z.eqb_spec (RefreshSequencer.counter (RefreshSequencer.run abits babits trp trfc start k)) trp);
      destruct (Z.eqb_spec (RefreshSequencer.counter (RefreshSequencer.run abits babits trp trfc start k)) (trp + trfc));
      try lia; cbn [andb orb]; split; auto; discriminate.
Qed.

Lemma sequencer_commands_legal_witness :
  let r := RefreshSequencer.out (RefreshSequencer.run 13 2 5 10 (fun k => Nat.even k) 8) in
  ((RefreshSequencer.cas r, RefreshSequencer.ras r, RefreshSequencer.we r) = (false, false, false) \/
   (RefreshSequencer.cas r, RefreshSequencer.ras r, RefreshSequencer.we r) = (false, true, true) \/
   (RefreshSequencer.cas r, RefreshSequencer.ras r, RefreshSequencer.we r) = (true, true, false)) /\
  (RefreshSequencer.done r = true ->
   (RefreshSequencer.cas r, RefreshSequencer.ras r, RefreshSequencer.we r) = (false, false, false)).
Proof.
  apply (sequencer_commands_legal 13 2 5 10 (fun k => Nat.even k) 8); lia.
Defined.

(** X4.  Whatever [start] does, a cycle that shows the precharge strobes
    ([we] high) is followed by the whole sequence: over the next
    [tRP + tRFC] cycles [we] is high at offset 0 only, [cas] at offset [tRP]
    only, [ras] at those two offsets, and [done] at offset [tRP + tRFC]
    only.  A trigger that arrives while the sequence runs changes nothing. *)
Theorem precharge_starts_full_sequence (abits babits trp trfc : Z) (start : nat -> bool)
    (k j : nat) :
  0 < trp -> 0 < trfc ->
  RefreshSequencer.we (RefreshSequencer.out (RefreshSequencer.run abits babits trp trfc start k)) = true ->
  Z.of_nat j <= trp + trfc ->
  let r := RefreshSequencer.out (RefreshSequencer.run abits babits trp trfc start (k + j)) in
  RefreshSequencer.we r = (Z.of_nat j =? 0) /\
  RefreshSequencer.cas r = (Z.of_nat j =? trp) /\
  RefreshSequencer.ras r = ((Z.of_nat j =? 0) || (Z.of_nat j =? trp)) /\
  RefreshSequencer.done r = (Z.of_nat j =? trp + trfc).
Proof.
  intros Hrp Hrfc Hwe Hj. cbv zeta.
  destruct k as [|k]; [discriminate|].
  destruct (out_step abits babits trp trfc Hrp Hrfc start k) as (_ & _ & Hw & _).
  cbv zeta in Hw. rewrite Hwe in Hw. symmetry in Hw.
  apply andb_true_iff in Hw as [Hs H0]. apply Z.eqb_eq in H0.
  assert (H1 : RefreshSequencer.counter (RefreshSequencer.run abits babits trp trfc start (S k)) = 1).
  { rewrite counter_step by assumption. cbv zeta. rewrite H0, Hs. reflexivity. }
  destruct j as [|j].
  - rewrite Nat.add_0_r.
    destruct (out_step abits babits trp trfc Hrp Hrfc start k) as (Hc' & Hr' & Hw' & Hd').
    cbv zeta in Hc', Hr', Hw', Hd'. rewrite Hc', Hr', Hw', Hd', H0, Hs.
    change (Z.of_nat 0) with 0. repeat split.
  - rewrite Nat.add_succ_r.
    destruct (out_step abits babits trp trfc Hrp Hrfc start (S k + j)) as (Hc' & Hr' & Hw' & Hd').
    cbv zeta in Hc', Hr', Hw', Hd'. rewrite Hc', Hr', Hw', Hd'.
    rewrite Nat2Z.inj_succ in Hj.
    rewrite (counter_runs_on abits babits trp trfc Hrp Hrfc start (S k) j) by lia.
    rewrite H1, Nat2Z.inj_succ. unfold Z.succ.
    replace (1 + Z.of_nat j) with (Z.of_nat j + 1) by lia.
    destruct (Z.eqb_spec (Z.of_nat j + 1) 0); [lia|].
    rewrite andb_false_r. repeat split.
Qed.

Lemma precharge_starts_full_sequence_witness :
  let r := RefreshSequencer.out (RefreshSequencer.run 13 2 5 10 (fun k => Nat.even k) (1 + 5)) in
  RefreshSequencer.we r = (Z.of_nat 5 =? 0) /\
  RefreshSequencer.cas r = (Z.of_nat 5 =? 5) /\
  RefreshSequencer.ras r = ((Z.of_nat 5 =? 0) || (Z.of_nat 5 =? 5)) /\
  RefreshSequencer.done r = (Z.of_nat 5 =? 5 + 10).
Proof.
  apply (precharge_starts_full_sequence 13 2 5 10 (fun k => Nat.even k) 1 5);
    [lia | lia | reflexivity | cbn; lia].
Defined.

(** X5.  Whatever [start] does, every auto-refresh command ([cas] high)
    comes exactly [tRP] cycles after a cycle with [we] high, and every
    [done] pulse exactly [tRP + tRFC] cycles after one: the sequencer keeps
    the two waits of its schedule under any trigger pattern. *)
Theorem refresh_follows_precharge (abits babits trp trfc : Z) (start : nat -> bool) (k : nat) :
  0 < trp -> 0 < trfc ->
  let r := fun n => RefreshSequencer.out (RefreshSequencer.run abits babits trp trfc start n) in
  (RefreshSequencer.cas (r k) = true ->
   exists k0 : nat, Z.of_nat k = Z.of_nat k0 + trp /\ RefreshSequencer.we (r k0) = true) /\
  (RefreshSequencer.done (r k) = true ->
   exists k0 : nat, Z.of_nat k = Z.of_nat k0 + trp + trfc /\ RefreshSequencer.we (r k0) = true).
Proof.
  intros Hrp Hrfc. cbv zeta.
  destruct k as [|k]; [split; discriminate|].
  destruct (out_step abits babits trp trfc Hrp Hrfc start k) as (Hc & _ & _ & Hd).
  cbv zeta in Hc, Hd. rewrite Hc, Hd.
  split; intros H; apply Z.eqb_eq in H;
    destruct (counter_origin abits babits trp trfc Hrp Hrfc start k ltac:(lia)) as (k0 & Hk & Hs & H0);
    exists (S k0);
    destruct (out_step abits babits trp trfc Hrp Hrfc start k0) as (_ & _ & Hw & _);
    cbv zeta in Hw; rewrite Hw, Hs, H0; rewrite !Nat2Z.inj_succ; split; [lia | reflexivity | lia | reflexivity].
Qed.

Lemma refresh_follows_precharge_witness :
  let r := fun n => RefreshSequencer.out (RefreshSequencer.run 13 2 5 10 (fun k => Nat.even k) n) in
  (RefreshSequencer.cas (r 6%nat) = true ->
   exists k0 : nat, Z.of_nat 6 = Z.of_nat k0 + 5 /\ RefreshSequencer.we (r k0) = true) /\
  (RefreshSequencer.done (r 6%nat) = true ->
   exists k0 : nat, Z.of_nat 6 = Z.of_nat k0 + 5 + 10 /\ RefreshSequencer.we (r k0) = true).
Proof.
  apply (refresh_follows_precharge 13 2 5 10 (fun k => Nat.even k) 6); lia.
Defined.

(** ** The sequencer at rest, for any schedule *)

Section SequencerRest.
Import Migen RefreshSequencer.
Variables (abits babits trp trfc : Z).

(** The address and bank registers are assigned the same values in every
    cycle, whatever the schedule does. *)
Lemma next_a_ba (start : bool) (s : state) :
  a (out (next abits babits trp trfc start s)) = trunc abits (2 ^ 10) /\
  ba (out (next abits babits trp trfc start s)) = trunc babits 0.
Proof.
  unfold next, timeline, run_events, events. cbn [fold_left fst snd out].
  repeat match goal with
         | |- context [if get_cond ?t ?c ?e then _ else _] => destruct (get_cond t c e)
         end; split; reflexivity.
Qed.

(** Without a trigger a counter at 0 stays at 0 and every strobe and [done]
    is low in the next cycle; this needs nothing of [trp] and [trfc]. *)
Lemma next_at_rest (s : state) :
  counter s = 0 ->
  next abits babits trp trfc false s
  = {| counter := 0; out := defaults abits babits |}.
Proof.
  intros H0. unfold next, timeline, counterlogic, run_events, events, get_cond.
  cbn [fold_left fst snd]. rewrite H0. change (0 =? 0) with true.
  cbn [negb andb]. unfold trunc at 1. rewrite Zmod_0_l.
  f_equal.
  - destruct (negb _); [destruct (0 =? _)|]; reflexivity.
  - destruct (Z.eqb_spec trp 0); destruct (Z.eqb_spec 0 trp);
      destruct (Z.eqb_spec (trp + trfc) 0); destruct (Z.eqb_spec 0 (trp + trfc));
      try lia; reflexivity.
Qed.

Lemma run_before_trigger (p k : nat) :
  (k <= p)%nat -> counter (run abits babits trp trfc (start_at p) k) = 0.
Proof.
  induction k as [|k IH]; intros Hk; [reflexivity|].
  cbn [run]. unfold start_at at 1.
  destruct (Nat.eqb_spec k p); [lia|].
  rewrite next_at_rest; [reflexivity | apply IH; lia].
Qed.

End SequencerRest.

(** X6.  With [tRP = 0] the two commands of the schedule fall into the same
    cycle: one cycle after the trigger [cas], [ras] and [we] are all high
    together, a pattern that is neither precharge nor auto refresh. *)
Theorem zero_trp_merges_commands (abits babits trfc : Z) (p : nat) :
  0 < trfc ->
  let r := RefreshSequencer.out
             (RefreshSequencer.run abits babits 0 trfc (RefreshSequencer.start_at p) (S p)) in
  (RefreshSequencer.cas r, RefreshSequencer.ras r, RefreshSequencer.we r) = (true, true, true).
Proof.
  intros Hrfc. cbv zeta. cbn [RefreshSequencer.run].
  assert (Hs : RefreshSequencer.start_at p p = true)
    by (unfold RefreshSequencer.start_at; apply Nat.eqb_refl).
  rewrite Hs.
  unfold RefreshSequencer.next, Migen.timeline, Migen.run_events, RefreshSequencer.events,
    Migen.get_cond.
  cbn [fold_left fst snd RefreshSequencer.out RefreshSequencer.counter].
  rewrite run_before_trigger by lia.
  change (0 =? 0) with true. cbn [andb].
  destruct (Z.eqb_spec (0 + trfc) 0); [lia|].
  destruct (Z.eqb_spec 0 (0 + trfc)); [lia|]. reflexivity.
Qed.

Lemma zero_trp_merges_commands_witness :
  let r := RefreshSequencer.out
             (RefreshSequencer.run 13 2 0 10 (RefreshSequencer.start_at 4) 5) in
  (RefreshSequencer.cas r, RefreshSequencer.ras r, RefreshSequencer.we r) = (true, true, true).
Proof.
  apply (zero_trp_merges_commands 13 2 10 4). lia.
Defined.

(** ** The refresher under an arbitrary arbiter *)

(** X7.  From the first cycle after reset on, the command's bank is 0 and
    its address is [2^10] cut to the address width: 1024 (the all-banks bit)
    when there are more than 10 address bits, and 0, the bit lost, when
    there are 10 or fewer. *)
Theorem command_address (cfg : Refresher.settings) (ready : nat -> bool) (n : nat) :
  let r := RefreshSequencer.out (Refresher.sequencer (Refresher.run cfg ready (S n))) in
  RefreshSequencer.ba r = 0 /\
  (10 < Refresher.addressbits cfg -> RefreshSequencer.a r = 1024) /\
  (0 <= Refresher.addressbits cfg <= 10 -> RefreshSequencer.a r = 0).
Proof.
  cbv zeta. cbn [Refresher.run]. unfold Refresher.next. cbn [Refresher.sequencer].
  match goal with
  | |- context [RefreshSequencer.next ?a ?b ?p ?f ?st ?s] =>
      destruct (next_a_ba a b p f st s) as [Ha Hb]
  end.
  rewrite Ha, Hb. unfold Migen.trunc, Refresher.abits.
  split; [apply Zmod_0_l | split]; intros H.
  - apply Z.mod_small. split; [lia|].
    assert (2 ^ 11 <= 2 ^ Refresher.addressbits cfg) by (apply Z.pow_le_mono_r; lia). lia.
  - replace 10 with (10 - Refresher.addressbits cfg + Refresher.addressbits cfg) at 1 by lia.
    rewrite Z.pow_add_r by lia. apply Z_mod_mult.
Qed.

Section RefresherHandshake.
Import Refresher.
Variable cfg : settings.
Variable ready : nat -> bool.

Lemma valid_in_grant_wait (s : state) : fsm s = WAIT_CONTROLLER_GRANT -> valid s = true.
Proof. intros H. unfold valid, wires. rewrite H. reflexivity. Qed.

Lemma stays_in_grant_wait (n m : nat) :
  fsm (run cfg ready n) = WAIT_CONTROLLER_GRANT ->
  (forall j : nat, (j < m)%nat -> ready (n + j)%nat = false) ->
  fsm (run cfg ready (n + m)) = WAIT_CONTROLLER_GRANT.
Proof.
  intros Hf. induction m as [|m IH]; intros Hr.
  - now rewrite Nat.add_0_r.
  - rewrite Nat.add_succ_r. cbn [run]. unfold next, wires. cbn [fsm].
    rewrite IH by (intros j Hj; apply Hr; lia).
    rewrite (Hr m) by lia. reflexivity.
Qed.

End RefresherHandshake.

(** X8.  A timer pulse seen in IDLE raises [cmd.valid] in the next cycle,
    and the request is never withdrawn: the machine stays in
    WAIT-CONTROLLER-GRANT with [cmd.valid] high and [cmd.last] low for as
    long as the arbiter keeps [cmd.ready] low. *)
Theorem request_held_until_grant (cfg : Refresher.settings) (ready : nat -> bool) (n m : nat) :
  Refresher.fsm (Refresher.run cfg ready n) = Refresher.IDLE ->
  Refresher.timer_done (Refresher.run cfg ready n) = true ->
  (forall j : nat, (j < m)%nat -> ready (S n + j)%nat = false) ->
  let s := Refresher.run cfg ready (S n + m) in
  Refresher.fsm s = Refresher.WAIT_CONTROLLER_GRANT /\
  Refresher.valid s = true /\ Refresher.last s = false.
Proof.
  intros Hf Hd Hr. cbv zeta.
  assert (H1 : Refresher.fsm (Refresher.run cfg ready (S n)) = Refresher.WAIT_CONTROLLER_GRANT).
  { cbn [Refresher.run]. unfold Refresher.next, Refresher.wires. cbn [Refresher.fsm].
    rewrite Hf, Hd. reflexivity. }
  pose proof (stays_in_grant_wait cfg ready (S n) m H1 Hr) as Hw.
  split; [exact Hw | split].
  - now apply valid_in_grant_wait.
  - unfold Refresher.last, Refresher.wires. rewrite Hw. reflexivity.
Qed.

Lemma request_held_until_grant_witness :
  let s := Refresher.run (Refresher.mkSettings 13 2 1 7 2 3 true) (fun k => Nat.leb 9 k) (7 + 2) in
  Refresher.fsm s = Refresher.WAIT_CONTROLLER_GRANT /\
  Refresher.valid s = true /\ Refresher.last s = false.
Proof.
  apply (request_held_until_grant (Refresher.mkSettings 13 2 1 7 2 3 true)
           (fun k => Nat.leb 9 k) 6 2); [reflexivity | reflexivity |].
  intros j Hj. destruct j as [|[|j]]; [reflexivity | reflexivity | lia].
Defined.

Section RefresherStrobes.
Import Refresher.
Variable cfg : settings.
Hypothesis trp_pos : 0 < tRP cfg.
Hypothesis trfc_pos : 0 < tRFC cfg.
Variable ready : nat -> bool.

(** The strobes of cycle [n + 1], read off the state machine and the counter
    of cycle [n]. *)
Lemma strobes_step (n : nat) :
  let s := run cfg ready n in
  let c := RefreshSequencer.counter (sequencer s) in
  let st := sequencer_start (wires (ready n) s) in
  strobes (run cfg ready (S n))
  = (c =? tRP cfg, (st && (c =? 0)) || (c =? tRP cfg), st && (c =? 0)).
Proof.
  cbv zeta. unfold strobes. cbn [run]. rewrite next_sequencer.
  rewrite next_out by assumption. reflexivity.
Qed.

Lemma start_only_on_grant (r : bool) (s : state) :
  sequencer_start (wires r s)
  = match fsm s with WAIT_CONTROLLER_GRANT => r | _ => false end.
Proof.
  unfold wires. destruct (fsm s); cbn [fsm_act sequencer_start]; try reflexivity.
  destruct (sequencer_done s); reflexivity.
Qed.

End RefresherStrobes.

(** X9.  In every run, a cycle in which any command strobe is high is a
    cycle in WAIT-SEQUENCER with [cmd.valid] high and [cmd.last] low: the
    refresher puts no command on the bus outside its request window. *)
Theorem strobes_only_while_valid (cfg : Refresher.settings) (ready : nat -> bool) (n : nat) :
  0 < Refresher.tRP cfg -> 0 < Refresher.tRFC cfg ->
  Refresher.strobes (Refresher.run cfg ready n) <> (false, false, false) ->
  Refresher.fsm (Refresher.run cfg ready n) = Refresher.WAIT_SEQUENCER /\
  Refresher.valid (Refresher.run cfg ready n) = true /\
  Refresher.last (Refresher.run cfg ready n) = false.
Proof.
  intros Hrp Hrfc Hs.
  assert (Hgoal : Refresher.fsm (Refresher.run cfg ready n) = Refresher.WAIT_SEQUENCER /\
                  Refresher.sequencer_done (Refresher.run cfg ready n) = false).
  { destruct n as [|n]; [exfalso; apply Hs; reflexivity|].
    rewrite strobes_step in Hs by assumption. cbv zeta in Hs.
    rewrite start_only_on_grant in Hs.
    pose proof (inv_run cfg Hrp Hrfc ready n) as Hi. unfold Refresher.inv in Hi. cbv zeta in Hi.
    cbn [Refresher.run]. rewrite next_sequencer_done by assumption.
    unfold Refresher.next, Refresher.wires. cbn [Refresher.fsm].
    destruct (Refresher.fsm (Refresher.run cfg ready n)); cbn [Refresher.fsm_act Refresher.next_state].
    - destruct Hi as [H0 _]. rewrite H0 in Hs. exfalso. apply Hs.
      destruct (Z.eqb_spec 0 (Refresher.tRP cfg)); [lia | reflexivity].
    - destruct Hi as [H0 _]. rewrite H0 in Hs |- *.
      destruct (ready n).
      + split; [reflexivity|].
        destruct (Z.eqb_spec 0 (Refresher.tRP cfg + Refresher.tRFC cfg)); [lia | reflexivity].
      + exfalso. apply Hs.
        destruct (Z.eqb_spec 0 (Refresher.tRP cfg)); [lia | reflexivity].
    - destruct Hi as [[Hr Hd] | [H0 Hd]]; rewrite Hd.
      + cbn [Refresher.next_state]. split; [reflexivity|].
        destruct (Z.eqb_spec (RefreshSequencer.counter
                                (Refresher.sequencer (Refresher.run cfg ready n)))
                             (Refresher.tRP cfg)) as [He|He].
        * rewrite He. destruct (Z.eqb_spec (Refresher.tRP cfg)
                                  (Refresher.tRP cfg + Refresher.tRFC cfg)); [lia | reflexivity].
        * exfalso. apply Hs. reflexivity.
      + rewrite H0 in Hs. exfalso. apply Hs.
        destruct (Z.eqb_spec 0 (Refresher.tRP cfg)); [lia | reflexivity]. }
  destruct Hgoal as [Hf Hd]. split; [exact Hf|].
  unfold Refresher.valid, Refresher.last, Refresher.wires. rewrite Hf, Hd. split; reflexivity.
Qed.

Lemma strobes_only_while_valid_witness :
  Refresher.fsm (Refresher.run (Refresher.mkSettings 13 2 1 7 2 3 true) Refresher.always_ready 8)
    = Refresher.WAIT_SEQUENCER /\
  Refresher.valid (Refresher.run (Refresher.mkSettings 13 2 1 7 2 3 true) Refresher.always_ready 8) = true /\
  Refresher.last (Refresher.run (Refresher.mkSettings 13 2 1 7 2 3 true) Refresher.always_ready 8) = false.
Proof.
  apply (strobes_only_while_valid (Refresher.mkSettings 13 2 1 7 2 3 true) Refresher.always_ready 8);
    [cbn; lia | cbn; lia | vm_compute; discriminate].
Defined.

(** X10.  Every grant issues the two commands, whatever the arbiter does
    afterwards: after [cmd.ready] is high in a WAIT-CONTROLLER-GRANT cycle
    [n], over the cycles [n + 1 .. n + tRP + tRFC + 1] the strobes show
    precharge all ([ras], [we]) at [n + 1], auto refresh ([cas], [ras]) at
    [n + 1 + tRP], and nothing in between or after. *)
Theorem grant_issues_commands (cfg : Refresher.settings) (ready : nat -> bool) (n j : nat) :
  0 < Refresher.tRP cfg -> 0 < Refresher.tRFC cfg ->
  Refresher.fsm (Refresher.run cfg ready n) = Refresher.WAIT_CONTROLLER_GRANT ->
  ready n = true ->
  1 <= Z.of_nat j <= Refresher.tRP cfg + Refresher.tRFC cfg + 1 ->
  Refresher.strobes (Refresher.run cfg ready (n + j))
  = (Z.of_nat j =? Refresher.tRP cfg + 1,
     (Z.of_nat j =? 1) || (Z.of_nat j =? Refresher.tRP cfg + 1),
     Z.of_nat j =? 1).
Proof.
  intros Hrp Hrfc Hf Hr Hj.
  destruct j as [|j]; [cbn in Hj; lia|].
  rewrite Nat.add_succ_r, strobes_step by assumption. cbv zeta.
  rewrite start_only_on_grant. rewrite Nat2Z.inj_succ in *. unfold Z.succ in *.
  destruct j as [|j].
  - rewrite Nat.add_0_r, Hf, Hr.
    pose proof (inv_run cfg Hrp Hrfc ready n) as Hi. unfold Refresher.inv in Hi. cbv zeta in Hi.
    rewrite Hf in Hi. destruct Hi as [H0 _]. rewrite H0. change (Z.of_nat 0) with 0.
    destruct (Z.eqb_spec 0 (Refresher.tRP cfg)); [lia|].
    destruct (Z.eqb_spec (0 + 1) (Refresher.tRP cfg + 1)); [lia|]. reflexivity.
  - destruct (sequence_runs cfg Hrp Hrfc ready n Hf Hr (S j) ltac:(lia)) as (Hs & Hc & _).
    cbv zeta in Hs, Hc. rewrite Hs, Hc.
    destruct (Z.eqb_spec (Z.of_nat (S j)) (Refresher.tRP cfg + Refresher.tRFC cfg + 1)); [lia|].
    cbn [andb orb].
    destruct (Z.eqb_spec (Z.of_nat (S j) + 1) 1); [lia|].
    destruct (Z.eqb_spec (Z.of_nat (S j)) (Refresher.tRP cfg));
      destruct (Z.eqb_spec (Z.of_nat (S j) + 1) (Refresher.tRP cfg + 1)); try lia; reflexivity.
Qed.

Lemma grant_issues_commands_witness :
  Refresher.strobes (Refresher.run (Refresher.mkSettings 13 2 1 7 2 3 true)
                       (fun k => Nat.leb 9 k) (9 + 3))
  = (Z.of_nat 3 =? 2 + 1, (Z.of_nat 3 =? 1) || (Z.of_nat 3 =? 2 + 1), Z.of_nat 3 =? 1).
Proof.
  apply (grant_issues_commands (Refresher.mkSettings 13 2 1 7 2 3 true) (fun k => Nat.leb 9 k) 9 3);
    [cbn; lia | cbn; lia | reflexivity | reflexivity | cbn; lia].
Defined.

(** X11.  With [with_refresh] off and an interval above 1 the refresher
    does nothing, for any [tRP], [tRFC] and arbiter: in every cycle the
    machine is in IDLE, [cmd.valid] and [cmd.last] are low, no strobe is high
    and the timer's [done] is low. *)
Theorem refresh_disabled_idle (cfg : Refresher.settings) (ready : nat -> bool) (n : nat) :
  Refresher.with_refresh cfg = false -> 1 < Refresher.tREFI cfg ->
  let s := Refresher.run cfg ready n in
  Refresher.fsm s = Refresher.IDLE /\
  Refresher.valid s = false /\ Refresher.last s = false /\
  Refresher.strobes s = (false, false, false) /\
  Refresher.timer_done s = false.
Proof.
  intros Hoff HT. cbv zeta.
  assert (Hinv : Refresher.fsm (Refresher.run cfg ready n) = Refresher.IDLE /\
                 RefreshSequencer.counter (Refresher.sequencer (Refresher.run cfg ready n)) = 0 /\
                 Refresher.strobes (Refresher.run cfg ready n) = (false, false, false) /\
                 Refresher.timer (Refresher.run cfg ready n)
                 = RefreshTimer.reset_state (Refresher.tREFI cfg)).
  { induction n as [|n IH]; [repeat split|].
    destruct IH as (Hf & Hc & _ & Ht).
    assert (Hd : Refresher.timer_done (Refresher.run cfg ready n) = false).
    { unfold Refresher.timer_done. rewrite Ht. unfold RefreshTimer.done, RefreshTimer.reset_state.
      cbn [RefreshTimer.count]. destruct (Z.eqb_spec (Refresher.tREFI cfg - 1) 0); [lia | reflexivity]. }
    cbn [Refresher.run]. unfold Refresher.strobes, Refresher.next, Refresher.wires.
    cbn [Refresher.fsm Refresher.sequencer Refresher.timer].
    rewrite Hf, Hd. cbn [Refresher.fsm_act Refresher.next_state Refresher.sequencer_start].
    rewrite next_at_rest by assumption. cbn [RefreshSequencer.counter RefreshSequencer.out].
    unfold Refresher.timer_reset. rewrite Hoff. repeat split. }
  destruct Hinv as (Hf & _ & Hs & Ht).
  split; [exact Hf|]. unfold Refresher.valid, Refresher.last, Refresher.wires. rewrite Hf.
  cbn [Refresher.fsm_act Refresher.cmd_valid Refresher.cmd_last].
  repeat split; try assumption.
  unfold Refresher.timer_done. rewrite Ht. unfold RefreshTimer.done, RefreshTimer.reset_state.
  cbn [RefreshTimer.count]. destruct (Z.eqb_spec (Refresher.tREFI cfg - 1) 0); [lia | reflexivity].
Qed.

Lemma refresh_disabled_idle_witness :
  let s := Refresher.run (Refresher.mkSettings 13 2 1 7 2 3 false) Refresher.always_ready 20 in
  Refresher.fsm s = Refresher.IDLE /\
  Refresher.valid s = false /\ Refresher.last s = false /\
  Refresher.strobes s = (false, false, false) /\
  Refresher.timer_done s = false.
Proof.
  apply (refresh_disabled_idle (Refresher.mkSettings 13 2 1 7 2 3 false) Refresher.always_ready 20);
    [reflexivity | cbn; lia].
Defined.

(** ** The refresher under an arbiter that grants at once *)

Section RefresherSchedule.
Import Refresher.
Variable cfg : settings.
Hypothesis refresh_on : with_refresh cfg = true.
Hypothesis trp_pos : 0 < tRP cfg.
Hypothesis trfc_pos : 0 < tRFC cfg.
Hypothesis fits : tRP cfg + tRFC cfg + 3 <= tREFI cfg.

Ltac crunch :=
  repeat (first
    [ progress cbn [fsm_act next_state sequencer_start cmd_last cmd_valid andb orb negb]
    | match goal with
      | |- context [?x <? ?y] => destruct (Z.ltb_spec x y)
      | |- context [?x <=? ?y] => destruct (Z.leb_spec x y)
      | |- context [?x =? ?y] => destruct (Z.eqb_spec x y)
      end ]; try lia).

Lemma schedule_inv (n : nat) :
  let s := run cfg always_ready n in
  let r := Z.of_nat n mod tREFI cfg in
  fsm s = schedule cfg n /\
  RefreshSequencer.counter (sequencer s)
    = (if (tREFI cfg <=? Z.of_nat n) && (1 <=? r) && (r <=? tRP cfg + tRFC cfg) then r else 0) /\
  sequencer_done s = ((tREFI cfg <=? Z.of_nat n) && (r =? tRP cfg + tRFC cfg + 1)).
Proof.
  cbv zeta. induction n as [|n IH].
  - unfold schedule. change (Z.of_nat 0) with 0. rewrite Z.mod_0_l by lia.
    cbv zeta. crunch. repeat split.
  - destruct IH as (Hf & Hc & Hd).
    pose proof (inv_run cfg trp_pos trfc_pos always_ready n) as Hi.
    assert (Hr : 0 <= RefreshSequencer.counter (sequencer (run cfg always_ready n))
                 <= tRP cfg + tRFC cfg).
    { unfold inv in Hi. cbv zeta in Hi.
      destruct (fsm (run cfg always_ready n)); lia. }
    clear Hi. cbn [run].
    rewrite next_sequencer_done by assumption.
    rewrite next_counter_refresher by assumption.
    rewrite start_only_on_grant.
    unfold next, wires. cbn [fsm]. rewrite Hd, Hc, Hf.
    rewrite (timer_done_iff cfg refresh_on) by lia.
    unfold always_ready, schedule. cbv zeta.
    rewrite Nat2Z.inj_succ. unfold Z.succ. rewrite mod_succ by lia.
    pose proof (Z.mod_pos_bound (Z.of_nat n) (tREFI cfg) ltac:(lia)) as Hb.
    assert (Hsmall : Z.of_nat n < tREFI cfg -> Z.of_nat n mod tREFI cfg = Z.of_nat n)
      by (intros; apply Z.mod_small; lia).
    clear Hf Hc Hd Hr.
    generalize dependent (Z.of_nat n mod tREFI cfg). intros r Hb Hsmall.
    pose proof (Nat2Z.is_nonneg n) as Hn.
    generalize dependent (Z.of_nat n). intros z Hsmall Hn.
    destruct (Z.eqb_spec r (tREFI cfg - 1));
      crunch; repeat split; reflexivity || lia.
Qed.

Lemma schedule_handshake (n : nat) :
  let s := run cfg always_ready n in
  let r := Z.of_nat n mod tREFI cfg in
  valid s = ((tREFI cfg <=? Z.of_nat n) && (r <=? tRP cfg + tRFC cfg)) /\
  last s = ((tREFI cfg <=? Z.of_nat n) && (r =? tRP cfg + tRFC cfg + 1)).
Proof.
  cbv zeta. destruct (schedule_inv n) as (Hf & _ & Hd). cbv zeta in Hf, Hd.
  unfold valid, last, wires. rewrite Hf, Hd. unfold schedule. cbv zeta.
  pose proof (Z.mod_pos_bound (Z.of_nat n) (tREFI cfg) ltac:(lia)) as Hb.
  clear Hf Hd.
  generalize dependent (Z.of_nat n mod tREFI cfg). intros r Hb.
  crunch; split; reflexivity.
Qed.

Lemma schedule_strobes (n : nat) :
  let r := Z.of_nat n mod tREFI cfg in
  strobes (run cfg always_ready n)
  = ((tREFI cfg <=? Z.of_nat n) && (r =? tRP cfg + 1),
     (tREFI cfg <=? Z.of_nat n) && ((r =? 1) || (r =? tRP cfg + 1)),
     (tREFI cfg <=? Z.of_nat n) && (r =? 1)).
Proof.
  cbv zeta. destruct n as [|n].
  - change (Z.of_nat 0) with 0. rewrite Z.mod_0_l by lia.
    destruct (Z.leb_spec (tREFI cfg) 0); [lia | reflexivity].
  - rewrite strobes_step by assumption. cbv zeta. rewrite start_only_on_grant.
    destruct (schedule_inv n) as (Hf & Hc & _). cbv zeta in Hf, Hc.
    rewrite Hf, Hc. unfold always_ready, schedule. cbv zeta.
    rewrite Nat2Z.inj_succ. unfold Z.succ. rewrite mod_succ by lia.
    pose proof (Z.mod_pos_bound (Z.of_nat n) (tREFI cfg) ltac:(lia)) as Hb.
    assert (Hsmall : Z.of_nat n < tREFI cfg -> Z.of_nat n mod tREFI cfg = Z.of_nat n)
      by (intros; apply Z.mod_small; lia).
    clear Hf Hc.
    generalize dependent (Z.of_nat n mod tREFI cfg). intros r Hb Hsmall.
    pose proof (Nat2Z.is_nonneg n) as Hn.
    generalize dependent (Z.of_nat n). intros z Hsmall Hn.
    destruct (Z.eqb_spec r (tREFI cfg - 1));
      crunch; reflexivity || lia.
Qed.

End RefresherSchedule.

(** X12.  With refresh enabled, an arbiter that grants at once and an
    interval that leaves room for a sequence ([tREFI >= tRP + tRFC + 3]),
    every timer pulse is served by exactly one refresh, always at the same
    phase: nothing happens during the first interval, and from cycle
    [tREFI] on, with [r = n mod tREFI], the machine requests at [r = 0],
    runs the sequence through [r = 1 .. tRP + tRFC + 1] and is idle for the
    rest; [cmd.valid] is high for [r <= tRP + tRFC], [cmd.last] at
    [r = tRP + tRFC + 1], precharge all shows at [r = 1] and auto refresh at
    [r = tRP + 1]. *)
Theorem schedule_under_immediate_grant (cfg : Refresher.settings) (n : nat) :
  Refresher.with_refresh cfg = true ->
  0 < Refresher.tRP cfg -> 0 < Refresher.tRFC cfg ->
  Refresher.tRP cfg + Refresher.tRFC cfg + 3 <= Refresher.tREFI cfg ->
  let s := Refresher.run cfg Refresher.always_ready n in
  let r := Z.of_nat n mod Refresher.tREFI cfg in
  let on := Refresher.tREFI cfg <=? Z.of_nat n in
  Refresher.fsm s = Refresher.schedule cfg n /\
  Refresher.valid s = (on && (r <=? Refresher.tRP cfg + Refresher.tRFC cfg)) /\
  Refresher.last s = (on && (r =? Refresher.tRP cfg + Refresher.tRFC cfg + 1)) /\
  Refresher.strobes s
  = (on && (r =? Refresher.tRP cfg + 1),
     on && ((r =? 1) || (r =? Refresher.tRP cfg + 1)),
     on && (r =? 1)).
Proof.
  intros Hon Hrp Hrfc Hfit. cbv zeta.
  destruct (schedule_inv cfg Hon Hrp Hrfc Hfit n) as (Hf & _ & _).
  destruct (schedule_handshake cfg Hon Hrp Hrfc Hfit n) as (Hv & Hl).
  pose proof (schedule_strobes cfg Hon Hrp Hrfc Hfit n) as Hs.
  cbv zeta in Hf, Hv, Hl, Hs. repeat split; assumption.
Qed.

Lemma schedule_under_immediate_grant_witness :
  let cfg := Refresher.mkSettings 13 2 1 12 2 3 true in
  let s := Refresher.run cfg Refresher.always_ready 27 in
  let r := Z.of_nat 27 mod 12 in
  let on := 12 <=? Z.of_nat 27 in
  Refresher.fsm s = Refresher.schedule cfg 27 /\
  Refresher.valid s = (on && (r <=? 2 + 3)) /\
  Refresher.last s = (on && (r =? 2 + 3 + 1)) /\
  Refresher.strobes s = (on && (r =? 2 + 1), on && ((r =? 1) || (r =? 2 + 1)), on && (r =? 1)).
Proof.
  apply (schedule_under_immediate_grant (Refresher.mkSettings 13 2 1 12 2 3 true) 27);
    [reflexivity | cbn; lia | cbn; lia | cbn; lia].
Defined.
